(** * bootcamp-api: the controllers of [controllers/bootcamps.js]

    A shallow embedding of the request handlers of the bootcamp REST
    backend (bootcamp listing with filter translation, field selection,
    sorting and pagination; single-record fetch and delete; photo upload;
    login) and the properties of its specification, each proved or
    refuted on the embedding.

    Conventions.
    - JavaScript strings that go through [JSON.stringify], the operator
      regex, [JSON.parse] or [parseInt] are [text] (lists of characters);
      identifiers, messages and paths are [string].
    - A character is a UTF-16 code unit below 256; strings with other
      code units are outside the embedding.
    - JavaScript numbers are [number] where the code reads or rounds them
      (the result of [parseInt], the arithmetic on a huge page number)
      and [Z] where they are integers on which no operation rounds:
      sizes, counts, and the page numbers and limits of [exact_paging].
    - A collection of the document store is a finite map from [_id] to
      document, a document a finite map from field name to value. *)

From Stdlib Require Import ZArith Ascii String List Bool Lia.
From stdpp Require Import base option list strings gmap fin_maps pretty.

Local Open Scope char_scope.
Local Open Scope Z_scope.

(** ** Text *)

Abbreviation text := (list ascii).

Definition txt (s : string) : text := list_ascii_of_string s.

(** [\w] of a JavaScript regular expression without the [u] flag. *)
Definition is_digit (c : ascii) : bool := ("0" <=? c)%char && (c <=? "9")%char.

Definition is_word (c : ascii) : bool :=
  ("a" <=? c)%char && (c <=? "z")%char
  || ("A" <=? c)%char && (c <=? "Z")%char
  || is_digit c
  || Ascii.eqb c "_".

Definition text_eqb (a b : text) : bool := bool_decide (a = b).

(** ** The parsed query string

    [req.query] as the [qs] parser of Express builds it: every leaf is a
    string, [a[]=1&a[]=2] gives an array and [a[gt]=1] a nested object.
    An object is the list of its members in enumeration order. *)

#[warnings="-register-all"]
Inductive qval : Type :=
  | QStr (s : text)
  | QArr (l : list qval)
  | QObj (m : list (text * qval)).

(** [obj[key]]: the member named [key], [undefined] when there is none. *)
Fixpoint member (key : text) (m : list (text * qval)) : option qval :=
  match m with
  | [] => None
  | (k, v) :: m' => if text_eqb k key then Some v else member key m'
  end.

(** [delete obj[key]] *)
Definition delete_member (key : text) (m : list (text * qval)) : list (text * qval) :=
  List.filter (fun kv => negb (text_eqb (fst kv) key)) m.

(** JavaScript truthiness of a query value: only the empty string is falsy
    (arrays and objects, empty or not, are truthy); [undefined] is falsy. *)
Definition truthy (v : option qval) : bool :=
  match v with
  | None => false
  | Some (QStr []) => false
  | Some _ => true
  end.

Fixpoint join (sep : text) (l : list text) : text :=
  match l with
  | [] => []
  | [s] => s
  | s :: l' => s ++ sep ++ join sep l'
  end.

(** [ToString] of a query value, [None] when it throws a [TypeError].
    A string is itself.  An array is its elements, converted in turn and
    joined by commas ([Array.prototype.toString]).  An object without a
    member [toString] of its own inherits [Object.prototype.toString] and
    is ["[object Object]"].  An object with a member [toString] of its own
    has a string, an array or an object there, which cannot be called, and
    [valueOf] (its own, which cannot be called either, or the inherited
    one, which returns the object) gives no primitive value: the
    conversion throws. *)
Fixpoint toString (v : qval) : option text :=
  match v with
  | QStr s => Some s
  | QArr l => join [","] <$> mapM toString l
  | QObj m =>
      match member (txt "toString") m with
      | Some _ => None
      | None => Some (txt "[object Object]")
      end
  end.

(** [undefined] is ["undefined"]. *)
Definition toString_opt (v : option qval) : option text :=
  match v with
  | None => Some (txt "undefined")
  | Some v => toString v
  end.

(** ** JavaScript numbers

    The numbers of the handlers are integers, infinities or [NaN];
    [Num z] is the double whose value is the integer [z], whatever
    decimal JavaScript prints for it ([-0] and [0] are both [Num 0]: the
    handlers compare and print them alike). *)
Inductive number : Type :=
  | NaN
  | Num (z : Z)
  | Infinity (negative : bool).

(** The double nearest to an integer: an integer below 2^53 in magnitude
    is a double; a larger one keeps its 53 leading bits, rounded to the
    nearest, a tie to the even one; from 2^1024 - 2^970 on the result is
    an infinity. *)
Definition nearest_double (z : Z) : number :=
  let a := Z.abs z in
  if a <? 2 ^ 53 then Num z
  else
    let e := Z.log2 a - 52 in
    let q := Z.shiftr a e in
    let r := Z.land a (Z.ones e) in
    let half := Z.shiftl 1 (e - 1) in
    let q' := if (half <? r) || (r =? half) && Z.odd q then q + 1 else q in
    let m := Z.shiftl q' e in
    if 2 ^ 1024 <=? m then Infinity (z <? 0) else Num (Z.sgn z * m).

(** The integer is a double. *)
Definition is_double (z : Z) : bool :=
  match nearest_double z with
  | Num z' => z' =? z
  | _ => false
  end.

(** [a + b], [a - b], [a * b] and [a < b] on these numbers: the exact
    result, rounded to the nearest double. *)
Definition nadd (a b : number) : number :=
  match a, b with
  | NaN, _ | _, NaN => NaN
  | Num x, Num y => nearest_double (x + y)
  | Infinity s, Num _ => Infinity s
  | Num _, Infinity s => Infinity s
  | Infinity s, Infinity s' => if Bool.eqb s s' then Infinity s else NaN
  end.

Definition nopp (a : number) : number :=
  match a with
  | NaN => NaN
  | Num x => Num (- x)
  | Infinity s => Infinity (negb s)
  end.

Definition nsub (a b : number) : number := nadd a (nopp b).

Definition nmul (a b : number) : number :=
  match a, b with
  | NaN, _ | _, NaN => NaN
  | Num x, Num y => nearest_double (x * y)
  | Infinity s, Num x | Num x, Infinity s =>
      if x =? 0 then NaN else Infinity (xorb s (x <? 0))
  | Infinity s, Infinity s' => Infinity (xorb s s')
  end.

Definition nlt (a b : number) : bool :=
  match a, b with
  | NaN, _ | _, NaN => false
  | Num x, Num y => x <? y
  | Infinity s, Num _ => s
  | Num _, Infinity s => negb s
  | Infinity s, Infinity s' => s && negb s'
  end.

(** ** [parseInt(s, 10)]

    Leading white space is skipped, one sign is read, then the longest
    run of decimal digits; the result is the double nearest to the
    integer they write (as Node computes it), [NaN] when there is no
    digit at all. *)

(** White space among the characters below 256: tab, line feed, vertical
    tab, form feed, carriage return, space and the no-break space. *)
Definition is_space (c : ascii) : bool :=
  let n := nat_of_ascii c in
  (Nat.leb 9 n && Nat.leb n 13) || Nat.eqb n 32 || Nat.eqb n 160.

Fixpoint trim_start (t : text) : text :=
  match t with
  | c :: t' => if is_space c then trim_start t' else t
  | [] => []
  end.

Definition digit_value (c : ascii) : Z := Z.of_nat (nat_of_ascii c) - 48.

Fixpoint digits (acc : option Z) (t : text) : option Z :=
  match t with
  | c :: t' =>
      if is_digit c
      then digits (Some (10 * default 0 acc + digit_value c)) t'
      else acc
  | [] => acc
  end.

Definition parseInt (t : text) : number :=
  match trim_start t with
  | "-" :: r => from_option (fun n => nearest_double (- n)) NaN (digits None r)
  | "+" :: r => from_option nearest_double NaN (digits None r)
  | r => from_option nearest_double NaN (digits None r)
  end.

(** [n || d] on numbers: [NaN] and [0] (also [-0]) are falsy, an infinity
    is not. *)
Definition or_default (n : number) (d : Z) : number :=
  match n with
  | NaN => Num d
  | Num v => if v =? 0 then Num d else Num v
  | Infinity s => Infinity s
  end.

(** ** Pagination (lines 48-75 of [getBootcamps]) *)

(** [parseInt(req.query[key], 10)]; [None] when the conversion of the
    parameter to a string throws. *)
Definition parsed (key : string) (query : list (text * qval)) : option number :=
  parseInt <$> toString_opt (member (txt key) query).

(** [parseInt(req.query.page, 10) || 1] and
    [parseInt(req.query.limit, 10) || 25] *)
Definition page_number (query : list (text * qval)) : option number :=
  (fun n => or_default n 1) <$> parsed "page" query.

Definition limit_number (query : list (text * qval)) : option number :=
  (fun n => or_default n 25) <$> parsed "limit" query.

(** The page number and the limit of a request where they are integers.
    [getBootcamps] computes with them in [Z] when the doubles of the code
    compute the same ([exact_paging]); a request whose conversion throws,
    or whose numbers are infinite or round, does not reach this
    arithmetic. *)
Definition page (query : list (text * qval)) : Z :=
  match page_number query with
  | Some (Num p) => p
  | _ => 1
  end.

Definition limit (query : list (text * qval)) : Z :=
  match limit_number query with
  | Some (Num l) => l
  | _ => 25
  end.

(** No operation of lines 51-52 and 66-73 rounds: [page - 1], [page + 1],
    [(page - 1) * limit] and [page * limit] are doubles. *)
Definition exact_paging (page limit : Z) : bool :=
  is_double (page - 1) && is_double (page + 1)
  && is_double ((page - 1) * limit) && is_double (page * limit).

Definition startIndex (page limit : Z) : Z := (page - 1) * limit.
Definition endIndex (page limit : Z) : Z := page * limit.

Record PageRef := { pr_page : Z; pr_limit : Z }.

Record Pagination := { next : option PageRef; prev : option PageRef }.

Definition pagination (page limit total : Z) : Pagination :=
  {| next := if endIndex page limit <? total
             then Some {| pr_page := page + 1; pr_limit := limit |}
             else None;
     prev := if startIndex page limit >? 0
             then Some {| pr_page := page - 1; pr_limit := limit |}
             else None |}.

(** The same lines on numbers that round or are infinite. *)
Record PageRefN := { prn_page : number; prn_limit : number }.

Record PaginationN := { next_n : option PageRefN; prev_n : option PageRefN }.

Definition startIndexN (page limit : number) : number := nmul (nsub page (Num 1)) limit.
Definition endIndexN (page limit : number) : number := nmul page limit.

Definition paginationN (page limit total : number) : PaginationN :=
  {| next_n := if nlt (endIndexN page limit) total
               then Some {| prn_page := nadd page (Num 1); prn_limit := limit |}
               else None;
     prev_n := if nlt (Num 0) (startIndexN page limit)
               then Some {| prn_page := nsub page (Num 1); prn_limit := limit |}
               else None |}.

(** ** [JSON.stringify] of a query object *)

Abbreviation dquote := (Ascii false true false false false true false false).
Abbreviation bslash := (Ascii false false true true true false true false).

Definition is_control (c : ascii) : bool := Nat.ltb (nat_of_ascii c) 32.

Definition hex_digit (n : nat) : ascii := nth n (txt "0123456789abcdef") "0".

(** One character of a quoted string: the quote and the backslash are
    escaped with a backslash, a control character by its short escape or
    by [\u00XX], every other character stands for itself. *)
Definition quote_char (c : ascii) : text :=
  if Ascii.eqb c dquote then [bslash; dquote]
  else if Ascii.eqb c bslash then [bslash; bslash]
  else if is_control c then
    match nat_of_ascii c with
    | 8%nat => [bslash; "b"]
    | 9%nat => [bslash; "t"]
    | 10%nat => [bslash; "n"]
    | 12%nat => [bslash; "f"]
    | 13%nat => [bslash; "r"]
    | n => [bslash; "u"; "0"; "0"; hex_digit (n / 16); hex_digit (n mod 16)]
    end
  else [c].

Fixpoint quote_body (s : text) : text :=
  match s with
  | [] => []
  | c :: s' => quote_char c ++ quote_body s'
  end.

Definition quote (s : text) : text := dquote :: quote_body s ++ [dquote].

Fixpoint stringify (v : qval) : text :=
  match v with
  | QStr s => quote s
  | QArr l => "[" :: join [","] (List.map stringify l) ++ ["]"]
  | QObj m =>
      "{" :: join [","]
               (List.map (fun kv => let '(k, x) := kv in quote k ++ ":" :: stringify x) m)
          ++ ["}"]
  end.

(** ** The operator regex [/\b(gt|gte|lt|lte|in)\b/g] *)

Definition operators : list text :=
  [txt "gt"; txt "gte"; txt "lt"; txt "lte"; txt "in"].

Definition word_at (c : option ascii) : bool := from_option is_word false c.

(** [\b] between the character [prev] and the head of [t]; the start and
    the end of the input count as non-word characters. *)
Definition boundary (prev : option ascii) (t : text) : bool :=
  xorb (word_at prev) (word_at (head t)).

(** The alternative [alt] matches at the head of [t] and the closing [\b]
    holds after it; [prev] is the character before the head of [t]. *)
Fixpoint alt_matches (prev : option ascii) (alt t : text) {struct alt} : bool :=
  match alt with
  | [] => boundary prev t
  | a :: alt' =>
      match t with
      | c :: t' => Ascii.eqb a c && alt_matches (Some c) alt' t'
      | [] => false
      end
  end.

(** The regex at one position: the opening [\b], then the first
    alternative, in the order written, after which the closing [\b]
    holds; the result is the length of the match. *)
Definition match_at (prev : option ascii) (t : text) : option nat :=
  if boundary prev t
  then length <$> List.find (fun alt => alt_matches prev alt t) operators
  else None.

(** [str.replace(re, match => `$${match}`)]: left to right, a match is
    copied behind a dollar sign and the scan resumes after it ([skip]
    counts the characters of the current match still to copy). *)
Fixpoint replace_from (prev : option ascii) (skip : nat) (t : text) : text :=
  match t with
  | [] => []
  | c :: t' =>
      match skip with
      | S k => c :: replace_from (Some c) k t'
      | O =>
          match match_at prev t with
          | Some n => "$" :: c :: replace_from (Some c) (n - 1) t'
          | None => c :: replace_from (Some c) 0 t'
          end
      end
  end.

Definition replace_operators (t : text) : text := replace_from None 0 t.

(** ** [JSON.parse]

    The parser covers the JSON a stringified query can be: objects, arrays
    and strings, with white space between tokens.  Numbers and the
    literals [true], [false], [null] never occur in such a text; [None] is
    the [SyntaxError] of [JSON.parse].  An object is returned as the list
    of its members in the order of the text. *)

Definition is_json_space (c : ascii) : bool :=
  let n := nat_of_ascii c in
  Nat.eqb n 32 || Nat.eqb n 9 || Nat.eqb n 10 || Nat.eqb n 13.

Fixpoint skip_space (t : text) : text :=
  match t with
  | c :: t' => if is_json_space c then skip_space t' else t
  | [] => []
  end.

Definition hex_value (c : ascii) : option nat :=
  let n := nat_of_ascii c in
  if is_digit c then Some (n - 48)%nat
  else if (Nat.leb 97 n && Nat.leb n 102) then Some (n - 87)%nat
  else if (Nat.leb 65 n && Nat.leb n 70) then Some (n - 55)%nat
  else None.

(** The character of [ꯍ]; a code unit above 255 has no counterpart
    among the characters of [text]. *)
Definition unicode_escape (a b c d : ascii) : option ascii :=
  match hex_value a, hex_value b, hex_value c, hex_value d with
  | Some 0%nat, Some 0%nat, Some h, Some l => Some (ascii_of_nat (16 * h + l))
  | _, _, _, _ => None
  end.

Definition push (c : ascii) (r : option (text * text)) : option (text * text) :=
  match r with
  | Some (s, rest) => Some (c :: s, rest)
  | None => None
  end.

(** The characters of a string after its opening quote, up to the closing
    one: the string and the text that follows it. *)
Fixpoint parse_chars (t : text) : option (text * text) :=
  match t with
  | [] => None
  | c :: t' =>
      if Ascii.eqb c dquote then Some ([], t')
      else if Ascii.eqb c bslash then
        match t' with
        | [] => None
        | e :: t'' =>
            if Ascii.eqb e dquote || Ascii.eqb e bslash || Ascii.eqb e "/"
            then push e (parse_chars t'')
            else if Ascii.eqb e "b" then push (ascii_of_nat 8) (parse_chars t'')
            else if Ascii.eqb e "t" then push (ascii_of_nat 9) (parse_chars t'')
            else if Ascii.eqb e "n" then push (ascii_of_nat 10) (parse_chars t'')
            else if Ascii.eqb e "f" then push (ascii_of_nat 12) (parse_chars t'')
            else if Ascii.eqb e "r" then push (ascii_of_nat 13) (parse_chars t'')
            else if Ascii.eqb e "u" then
              match t'' with
              | h1 :: h2 :: h3 :: h4 :: t3 =>
                  match unicode_escape h1 h2 h3 h4 with
                  | Some u => push u (parse_chars t3)
                  | None => None
                  end
              | _ => None
              end
            else None
        end
      else if is_control c then None
      else push c (parse_chars t')
  end.

Fixpoint parse_value (fuel : nat) (t : text) {struct fuel} : option (qval * text) :=
  match fuel with
  | O => None
  | S f =>
      match skip_space t with
      | c :: t' =>
          if Ascii.eqb c dquote then
            match parse_chars t' with
            | Some (s, r) => Some (QStr s, r)
            | None => None
            end
          else if Ascii.eqb c "[" then
            match skip_space t' with
            | "]" :: r => Some (QArr [], r)
            | _ =>
                match parse_elements f t' with
                | Some (l, r) => Some (QArr l, r)
                | None => None
                end
            end
          else if Ascii.eqb c "{" then
            match skip_space t' with
            | "}" :: r => Some (QObj [], r)
            | _ =>
                match parse_members f t' with
                | Some (m, r) => Some (QObj m, r)
                | None => None
                end
            end
          else None
      | [] => None
      end
  end
with parse_elements (fuel : nat) (t : text) {struct fuel} : option (list qval * text) :=
  match fuel with
  | O => None
  | S f =>
      match parse_value f t with
      | Some (v, r) =>
          match skip_space r with
          | "," :: r' =>
              match parse_elements f r' with
              | Some (l, r'') => Some (v :: l, r'')
              | None => None
              end
          | "]" :: r' => Some ([v], r')
          | _ => None
          end
      | None => None
      end
  end
with parse_members (fuel : nat) (t : text) {struct fuel} : option (list (text * qval) * text) :=
  match fuel with
  | O => None
  | S f =>
      match skip_space t with
      | c :: t' =>
          if Ascii.eqb c dquote then
            match parse_chars t' with
            | Some (k, r) =>
                match skip_space r with
                | ":" :: r' =>
                    match parse_value f r' with
                    | Some (v, r'') =>
                        match skip_space r'' with
                        | "," :: r3 =>
                            match parse_members f r3 with
                            | Some (m, r4) => Some ((k, v) :: m, r4)
                            | None => None
                            end
                        | "}" :: r3 => Some ([(k, v)], r3)
                        | _ => None
                        end
                    | None => None
                    end
                | _ => None
                end
            | None => None
            end
          else None
      | [] => None
      end
  end.

(** The whole text is one value; the recursion depth of the parser is
    bounded by twice the length of the text. *)
Definition JSON_parse (t : text) : option qval :=
  match parse_value (S (2 * length t)) t with
  | Some (v, r) => match skip_space r with [] => Some v | _ => None end
  | None => None
  end.

(** ** The filter of [getBootcamps] (lines 14-32) *)

Definition removeFields : list text :=
  [txt "select"; txt "sort"; txt "page"; txt "limit"].

(** [const reqQuery = {...req.query}; removeFields.forEach(param => delete reqQuery[param])] *)
Definition reqQuery (query : list (text * qval)) : list (text * qval) :=
  fold_left (fun q param => delete_member param q) removeFields query.

Definition queryStr (query : list (text * qval)) : text :=
  replace_operators (stringify (QObj (reqQuery query))).

(** [JSON.parse(queryStr)], the argument of [Bootcamp.find]. *)
Definition find_filter (query : list (text * qval)) : option qval :=
  JSON_parse (queryStr query).

(** ** Documents, collections and the world of a request *)

Abbreviation Doc := (gmap string string).
Abbreviation Collection := (gmap string Doc).

(** [req.files.file] of express-fileupload. *)
Record UploadedFile := { name : string; mimetype : string; size : Z }.

Record World := {
  Bootcamps : Collection;
  Courses : Collection;
  Users : Collection;
  uploads : gmap string UploadedFile   (* the upload directory: path to file *)
}.

(** [process.env] *)
Record Env := { MAX_FILE_UPLOAD : Z; FILE_UPLOAD_PATH : string }.

(** Modelled from the spec: the class [ErrorResponse] of
    [utils/errorResponse] is not among the sources; an error is the
    message and the HTTP status code given to its constructor,
    [new ErrorResponse(message, statusCode)], and the status code is
    [undefined] when the constructor is called with the message only. *)
Record ErrorResponse := { message : string; statusCode : option Z }.

(** The JSON bodies of the success responses, all with [success: true].
    The body of a list is a [ListBody] when its page number and limit are
    integers on which no operation rounds, and a [ListBodyN], with the
    numbers as doubles, when they are not. *)
Inductive Body : Type :=
  | ListBody (count : nat) (pagination : Pagination) (data : list Doc)
  | ListBodyN (count : nat) (pagination : PaginationN) (data : list Doc)
  | MsgBody (msg : option Doc)
  | EmptyBody
  | FileBody (data : string)
  | TokenBody (token : string).

Inductive Outcome : Type :=
  | Json (status : Z) (body : Body)      (* res.status(status).json(body) *)
  | Next (err : ErrorResponse)           (* next(new ErrorResponse(...)) *)
  | Throw (err : string).                (* an exception, passed to next by asyncHandler *)

(** ** The handler monad: state passing with early exit

    [return next(...)] and [res.status(...).json(...)] end a handler; the
    storage calls read or change the world. *)

Inductive Step (A : Type) : Type :=
  | Go (a : A)
  | Stop (o : Outcome).
Arguments Go {A} a.
Arguments Stop {A} o.

Definition Handler (A : Type) : Type := World -> Step A * World.

#[global] Instance handler_ret : MRet Handler := fun A a w => (Go a, w).

#[global] Instance handler_bind : MBind Handler := fun A B k m w =>
  match m w with
  | (Go a, w') => k a w'
  | (Stop o, w') => (Stop o, w')
  end.

Definition stop {A} (o : Outcome) : Handler A := fun w => (Stop o, w).
Definition gets {A} (f : World -> A) : Handler A := fun w => (Go (f w), w).
Definition modify (f : World -> World) : Handler unit := fun w => (Go tt, f w).

(** A handler ends in a response. *)
Definition handle (h : Handler Empty_set) (w : World) : Outcome * World :=
  match h w with
  | (Go a, _) => match a with end
  | (Stop o, w') => (o, w')
  end.

(** ** The storage collaborator

    Modelled from the spec: the models [Bootcamp], [Course] and [User] of
    [models/] are not among the sources; the calls the controllers make
    on them are the ones of the storage collaborator: find by id, find
    one by field, count, delete by id, delete many by field, update by
    id. *)

Definition findById (c : World -> Collection) (id : string) : Handler (option Doc) :=
  gets (fun w => c w !! id).

Definition has_field (field value : string) (kd : string * Doc) : Prop :=
  kd.2 !! field = Some value.

#[global] Instance has_field_dec field value kd : Decision (has_field field value kd).
Proof. unfold has_field. apply _. Defined.

(** [Model.findOne({field: value})]: the first document with that field. *)
Definition findOne (c : World -> Collection) (field value : string) : Handler (option (string * Doc)) :=
  gets (fun w => head (filter (has_field field value) (map_to_list (c w)))).

(** [Model.countDocuments({field: value})] *)
Definition count_where (field value : string) (c : Collection) : nat :=
  base.size (filter (has_field field value) c).

(** [Model.deleteMany({field: value})] *)
Definition deleteMany (field value : string) (c : Collection) : Collection :=
  filter (fun kd => ~ has_field field value kd) c.

(** [Model.deleteOne({_id: id})] *)
Definition deleteOne (id : string) (c : Collection) : Collection := delete id c.

(** [Model.findByIdAndUpdate(id, update)]: the fields of [update] replace
    those of the stored document; nothing happens when there is none. *)
Definition findByIdAndUpdate (id : string) (update : Doc) (c : Collection) : Collection :=
  match c !! id with
  | Some d => <[id := update ∪ d]> c
  | None => c
  end.

Definition set_Bootcamps (f : Collection -> Collection) (w : World) : World :=
  {| Bootcamps := f (Bootcamps w); Courses := Courses w; Users := Users w; uploads := uploads w |}.

Definition set_Courses (f : Collection -> Collection) (w : World) : World :=
  {| Bootcamps := Bootcamps w; Courses := f (Courses w); Users := Users w; uploads := uploads w |}.

Definition set_uploads (f : gmap string UploadedFile -> gmap string UploadedFile) (w : World) : World :=
  {| Bootcamps := Bootcamps w; Courses := Courses w; Users := Users w; uploads := f (uploads w) |}.

(** The deferred query that [getBootcamps] builds with [find], [populate],
    [select], [sort], [skip] and [limit]. *)
Record Query := {
  q_filter : qval;
  q_populate : string;
  q_select : option text;
  q_sort : text;
  q_skip : number;
  q_limit : number
}.

Definition not_found (id : string) : ErrorResponse :=
  {| message := "Bootcamp not found with id of " +:+ id; statusCode := Some 404 |}.

Section Controllers.

(** What the controllers take from outside this file: the execution of a
    query and the meaning of a filter in the document store, [path.parse]
    of Node, the outcome of [file.mv], and the methods [matchPassword] and
    [getSignedJwtToken] of the user model. *)
Variable exec : Query -> Collection -> list Doc.
Variable matches : qval -> Doc -> bool.
Variable path_ext : string -> string.
Variable mv_fails : string -> bool.
Variable matchPassword : Doc -> string -> bool.
Variable getSignedJwtToken : Doc -> string.
Variable env : Env.

(** [Bootcamp.countDocuments(filter)]; without an argument every document
    of the collection is counted. *)
Definition countDocuments (filter : option qval) (c : Collection) : Z :=
  match filter with
  | None => Z.of_nat (base.size c)
  | Some f => Z.of_nat (length (List.filter (fun kd => matches f kd.2) (map_to_list c)))
  end.

(** [v.split(',').join(' ')]: only a string has [split]; on an array or
    an object of the query the call is a [TypeError]. *)
Definition split_join (v : option qval) : Handler text :=
  match v with
  | Some (QStr s) => mret (List.map (fun c => if Ascii.eqb c "," then " " else c) s)
  | _ => stop (Throw "TypeError")
  end.

(** A number that the conversion of a parameter gives, a [TypeError]
    when the conversion throws. *)
Definition to_number (n : option number) : Handler number :=
  match n with
  | Some n => mret n
  | None => stop (Throw "TypeError")
  end.

(** Lines 51-76 for a page number and a limit that are infinite or make
    an operation round. *)
Definition rounded_page (q1 : Query) (sortBy : text) (page limit : number) (total : Z)
  : Handler Empty_set :=
  let startIndex := startIndexN page limit in
  let q2 := {| q_filter := q_filter q1; q_populate := q_populate q1;
               q_select := q_select q1; q_sort := sortBy;
               q_skip := startIndex; q_limit := limit |} in
  bootcamps ← gets (fun w => exec q2 (Bootcamps w));
  stop (Json 200 (ListBodyN (length bootcamps) (paginationN page limit (Num total))
                    bootcamps)).

(** GET /api/v1/bootcamps *)
Definition getBootcamps (query : list (text * qval)) : Handler Empty_set :=
  match find_filter query with
  | None => stop (Throw "SyntaxError")
  | Some f =>
      let q0 := {| q_filter := f; q_populate := "courses"; q_select := None;
                   q_sort := []; q_skip := Num 0; q_limit := Num 0 |} in
      (* select *)
      q1 ← (if truthy (member (txt "select") query)
            then fields ← split_join (member (txt "select") query);
                 mret {| q_filter := q_filter q0; q_populate := q_populate q0;
                         q_select := Some fields; q_sort := q_sort q0;
                         q_skip := q_skip q0; q_limit := q_limit q0 |}
            else mret q0);
      (* sort *)
      sortBy ← (if truthy (member (txt "sort") query)
                then split_join (member (txt "sort") query)
                else mret (txt "-createdAt"));
      (* pagination: in [Z] where no operation rounds, on doubles
         otherwise *)
      page ← to_number (page_number query);
      limit ← to_number (limit_number query);
      total ← gets (fun w => countDocuments None (Bootcamps w));
      match page, limit with
      | Num page, Num limit =>
          if exact_paging page limit
          then
            let startIndex := startIndex page limit in
            let endIndex := endIndex page limit in
            let q2 := {| q_filter := q_filter q1; q_populate := q_populate q1;
                         q_select := q_select q1; q_sort := sortBy;
                         q_skip := Num startIndex; q_limit := Num limit |} in
            bootcamps ← gets (fun w => exec q2 (Bootcamps w));
            stop (Json 200 (ListBody (length bootcamps) (pagination page limit total)
                              bootcamps))
          else rounded_page q1 sortBy (Num page) (Num limit) total
      | _, _ => rounded_page q1 sortBy page limit total
      end
  end.

(** The model [Bootcamp] itself, a constructor function, is truthy. *)
Definition Bootcamp_truthy : bool := true.

(** GET /api/v1/bootcamps/:id; the test of line 85 is on [Bootcamp], the
    model, not on [bootcamp], the document found. *)
Definition getBootcamp (id : string) : Handler Empty_set :=
  bootcamp ← findById Bootcamps id;
  if negb Bootcamp_truthy
  then stop (Next (not_found id))
  else stop (Json 200 (MsgBody bootcamp)).

(** DELETE /api/v1/bootcamps/:id *)
Definition deleteBootcamp (id : string) : Handler Empty_set :=
  bootcamp ← findById Bootcamps id;
  match bootcamp with
  | None => stop (Next (not_found id))
  | Some _ =>
      modify (set_Courses (deleteMany "bootcamp" id));;
      modify (set_Bootcamps (deleteOne id));;
      stop (Json 200 EmptyBody)
  end.

(** POST /api/v1/bootcamps/:id/photo; [files] is [req.files] and the inner
    option [req.files.file]. *)
Definition bootcampPhotoUpload (id : string) (files : option (option UploadedFile))
  : Handler Empty_set :=
  bootcamp ← findById Bootcamps id;
  match bootcamp with
  | None => stop (Next (not_found id))
  | Some _ =>
      match files with
      | None => stop (Next {| message := "Please upload a file"; statusCode := Some 400 |})
      | Some None => stop (Throw "TypeError")
      | Some (Some file) =>
          if negb (String.prefix "image"%string (mimetype file))
          then stop (Next {| message := "Please upload a file"; statusCode := Some 400 |})
          else if size file >? MAX_FILE_UPLOAD env
          then stop (Next {| message := "Please upload an image less than "
                                          +:+ pretty (MAX_FILE_UPLOAD env);
                             statusCode := None |})
          else
            let file_name := "Photo_" +:+ id +:+ path_ext (name file) in
            let dest := FILE_UPLOAD_PATH env +:+ "/" +:+ file_name in
            if mv_fails dest
            then stop (Next {| message := "Problem with file upload"; statusCode := Some 500 |})
            else
              modify (set_uploads (insert dest
                        {| name := file_name; mimetype := mimetype file; size := size file |}));;
              modify (set_Bootcamps (findByIdAndUpdate id ({[ "photo"%string := file_name ]} : Doc)));;
              stop (Json 200 (FileBody file_name))
      end
  end.

(** [!s] for a field of [req.body]: [undefined] and the empty string. *)
Definition missing (s : option string) : bool :=
  match s with
  | None => true
  | Some s => bool_decide (s = EmptyString)
  end.

(** POST /api/v1/auth/login *)
Definition login (email password : option string) : Handler Empty_set :=
  if missing email || missing password
  then stop (Next {| message := "Please provide an email and password"; statusCode := Some 400 |})
  else
    user ← findOne Users "email" (default EmptyString email);
    match user with
    | None => stop (Next {| message := "Invalid credentials"; statusCode := Some 401 |})
    | Some (_, u) =>
        let isMatch := matchPassword u (default EmptyString password) in
        if negb isMatch
        then stop (Next {| message := "Invalid credentials"; statusCode := Some 401 |})
        else stop (Json 200 (TokenBody (getSignedJwtToken u)))
    end.

End Controllers.

(** ** The filter translation, described on the query itself *)

(** One of the five alternatives matches at the head of [t]. *)
Definition op_here (t : text) : bool :=
  existsb (fun alt => alt_matches None alt t) operators.

(** [t] with a dollar sign before every operator that starts at a word
    boundary and ends at one; [w] tells whether the character before [t]
    is a word character, [joins c] whether [c] is one for what follows. *)
Fixpoint dollars (joins : ascii -> bool) (w : bool) (t : text) : text :=
  match t with
  | [] => []
  | c :: t' =>
      (if op_here t && xorb w (is_word c) then ["$"] else [])
      ++ c :: dollars joins (joins c) t'
  end.

(** The same on a string of the query.  In the JSON text a control
    character is written as an escape that ends in a letter or a digit, so
    an operator right after one does not start at a word boundary. *)
Definition mark (s : text) : text :=
  dollars (fun c => is_word c || is_control c) false s.

Fixpoint mark_value (v : qval) : qval :=
  match v with
  | QStr s => QStr (mark s)
  | QArr l => QArr (List.map mark_value l)
  | QObj m => QObj (List.map (fun kv => let '(k, x) := kv in (mark k, mark_value x)) m)
  end.

Definition is_operator (k : text) : bool := bool_decide (k ∈ operators).

(** The translator in the words of the specification: under a field, a
    nested key that is one of the five operator keywords becomes the
    comparison operator; every other key and every value is left as it
    is. *)
Definition translate_nested (v : qval) : qval :=
  match v with
  | QObj inner =>
      QObj (List.map (fun kv => let '(k, x) := kv in
                                (if is_operator k then "$" :: k else k, x)) inner)
  | _ => v
  end.

Definition translate_spec (query : list (text * qval)) : qval :=
  QObj (List.map (fun kv => let '(k, v) := kv in (k, translate_nested v)) (reqQuery query)).

(** A character with which an alternative of the regex starts. *)
Definition starts_op (x : ascii) : bool :=
  Ascii.eqb x "g" || Ascii.eqb x "l" || Ascii.eqb x "i".

(** Length of the longest prefix of word characters. *)
Fixpoint wlen (t : text) : nat :=
  match t with
  | c :: t' => if is_word c then S (wlen t') else 0%nat
  | [] => 0%nat
  end.

(** [t] without the dollar signs that stand right before an operator: the
    inverse of [mark]. *)
Fixpoint strip (t : text) : text :=
  match t with
  | [] => []
  | c :: t' => if Ascii.eqb c "$" && op_here t' then strip t' else c :: strip t'
  end.

(** The names of the members of an object. *)
Definition keys (m : list (text * qval)) : list text := List.map fst m.

(** The text starts with the first character of a value. *)
Definition value_start (t : text) : bool :=
  match t with
  | c :: _ => Ascii.eqb c dquote || Ascii.eqb c "[" || Ascii.eqb c "{"
  | [] => false
  end.

(** The fuel that [parse_value] uses on the text of a value. *)
Fixpoint weight (v : qval) : nat :=
  match v with
  | QStr _ => 1
  | QArr l => S (list_sum (List.map (fun x => S (weight x)) l))
  | QObj m => S (list_sum (List.map (fun kv => let '(_, x) := kv in S (weight x)) m))
  end.

(** Induction on query values, with the values inside arrays and objects. *)
Fixpoint qval_induction (P : qval -> Prop)
    (Hstr : forall s, P (QStr s))
    (Harr : forall l, Forall P l -> P (QArr l))
    (Hobj : forall m, Forall (fun kv => P (snd kv)) m -> P (QObj m))
    (v : qval) {struct v} : P v :=
  match v with
  | QStr s => Hstr s
  | QArr l =>
      Harr l ((fix all (l : list qval) : Forall P l :=
                 match l return Forall P l with
                 | [] => @List.Forall_nil _ P
                 | x :: l' => @List.Forall_cons _ P x l' (qval_induction P Hstr Harr Hobj x) (all l')
                 end) l)
  | QObj m =>
      Hobj m ((fix all (m : list (text * qval)) : Forall (fun kv => P (snd kv)) m :=
                 match m return Forall (fun kv => P (snd kv)) m with
                 | [] => @List.Forall_nil _ _
                 | (k, x) :: m' =>
                     @List.Forall_cons _ (fun kv => P (snd kv)) (k, x) m'
                       (qval_induction P Hstr Harr Hobj x) (all m')
                 end) m)
  end.

(** ** The other controllers

    [createBootcamp], [updateBootcamp] and [getBootcampsInRadius] answer
    with [{success: true, data}] or [{success: true, count, data}]; such
    an answer is the value the handler returns, with its status. *)

Inductive Sent : Type :=
  | SentData (status : Z) (id : string) (data : Doc)
  | SentCount (status : Z) (count : nat) (data : list Doc).

Definition set_Users (f : Collection -> Collection) (w : World) : World :=
  {| Bootcamps := Bootcamps w; Courses := Courses w; Users := f (Users w); uploads := uploads w |}.

(** [s.split(sep)] for a separator of one character: the pieces of [s]
    between the separators, one piece (the empty one) for the empty
    string. *)
Fixpoint split (sep : ascii) (s : text) : list text :=
  match s with
  | [] => [[]]
  | c :: s' =>
      if Ascii.eqb c sep then [] :: split sep s'
      else match split sep s' with
           | piece :: pieces => (c :: piece) :: pieces
           | [] => [[c]]
           end
  end.

(** [req.query.select] or [req.query.sort] is there and has no [split]. *)
Definition not_a_string (v : option qval) : bool :=
  match v with
  | Some (QArr _) | Some (QObj _) => true
  | _ => false
  end.

(** The argument of [query.select] and of [query.sort] for a parameter
    that is a string or absent. *)
Definition commas_to_spaces (s : text) : text :=
  List.map (fun c => if Ascii.eqb c "," then " " else c) s.

Definition selected (v : option qval) : option text :=
  match v with
  | Some (QStr (c :: s)) => Some (commas_to_spaces (c :: s))
  | _ => None
  end.

Definition sorted_by (v : option qval) : text :=
  match v with
  | Some (QStr (c :: s)) => commas_to_spaces (c :: s)
  | _ => txt "-createdAt"
  end.

(** The query that [getBootcamps] runs for a request whose select and
    sort parameters are strings or absent, and its answers: the one for a
    page number and a limit on which no operation rounds, and the one for
    the others. *)
Definition list_query (query : list (text * qval)) (skip limit : number) : Query :=
  {| q_filter := mark_value (QObj (reqQuery query));
     q_populate := "courses";
     q_select := selected (member (txt "select") query);
     q_sort := sorted_by (member (txt "sort") query);
     q_skip := skip;
     q_limit := limit |}.

Definition exact_answer (exec : Query -> Collection -> list Doc)
    (query : list (text * qval)) (page limit : Z) (w : World) : Outcome :=
  let data := exec (list_query query (Num (startIndex page limit)) (Num limit)) (Bootcamps w) in
  Json 200 (ListBody (length data)
              (pagination page limit (Z.of_nat (base.size (Bootcamps w)))) data).

Definition rounded_answer (exec : Query -> Collection -> list Doc)
    (query : list (text * qval)) (page limit : number) (w : World) : Outcome :=
  let data := exec (list_query query (startIndexN page limit) limit) (Bootcamps w) in
  Json 200 (ListBodyN (length data)
              (paginationN page limit (Num (Z.of_nat (base.size (Bootcamps w))))) data).

(** A number from 0 on, [Infinity] included. *)
Definition not_negative (n : number) : bool :=
  match n with
  | NaN => false
  | Num z => 0 <=? z
  | Infinity negative => negb negative
  end.

(** The page number and the limit are integers on which no operation of
    the pagination rounds. *)
Definition exact_numbers (page limit : number) : option (Z * Z) :=
  match page, limit with
  | Num p, Num l => if exact_paging p l then Some (p, l) else None
  | _, _ => None
  end.

(** The number that a run of decimal digits writes. *)
Definition decimal (ds : text) : Z :=
  fold_left (fun acc c => 10 * acc + digit_value c) ds 0.

(** The name and the place that [bootcampPhotoUpload] gives a photo. *)
Definition photo_name (path_ext : string -> string) (id : string) (file : UploadedFile)
  : string :=
  "Photo_" +:+ id +:+ path_ext (name file).

Definition photo_path (path_ext : string -> string) (env : Env) (id : string)
    (file : UploadedFile) : string :=
  FILE_UPLOAD_PATH env +:+ "/" +:+ photo_name path_ext id file.

(** A place the geocoder returns. *)
Record Place (Number : Type) := { latitude : Number; longitude : Number }.
Arguments latitude {Number} p.
Arguments longitude {Number} p.

Section MoreControllers.

(** What these controllers take from outside this file: the [_id] the
    store gives a new document, the validation and the save middleware of
    the schemas ([None] is a [ValidationError]), the validators of an
    update, [getSignedJwtToken] of the user model, the geocoder, the
    division of JavaScript numbers, and the [$geoWithin] test of the
    store. *)
Variable new_id : Collection -> string.
Variable saved_bootcamp : Doc -> option Doc.
Variable saved_user : Doc -> option Doc.
Variable valid_update : Doc -> bool.
Variable getSignedJwtToken : Doc -> string.
Variable Number : Type.
Variable geocode : string -> list (Place Number).
Variable divide : string -> Z -> Number.
Variable centerSphere : Number -> Number -> Number -> Doc -> bool.

(** [Model.create(doc)]: the document is validated and saved under a new
    [_id]. *)
Definition create (saved : Doc -> option Doc) (get : World -> Collection)
    (set : (Collection -> Collection) -> World -> World) (doc : Doc)
  : Handler (string * Doc) :=
  match saved doc with
  | None => stop (Throw "ValidationError")
  | Some d =>
      id ← gets (fun w => new_id (get w));
      modify (set (insert id d));;
      mret (id, d)
  end.

(** POST /api/v1/bootcamps *)
Definition createBootcamp (body : Doc) : Handler Sent :=
  bootcamp ← create saved_bootcamp Bootcamps set_Bootcamps body;
  mret (SentData 201 bootcamp.1 bootcamp.2).

(** PUT /api/v1/bootcamps/:id; with [runValidators] the update is
    validated before it is applied, and with [new] the document returned
    is the updated one. *)
Definition updateBootcamp (id : string) (body : Doc) : Handler Sent :=
  if negb (valid_update body) then stop (Throw "ValidationError")
  else
    modify (set_Bootcamps (findByIdAndUpdate id body));;
    bootcamp ← findById Bootcamps id;
    match bootcamp with
    | None => stop (Next (not_found id))
    | Some b => mret (SentData 200 id b)
    end.

(** GET /api/v1/bootcamps/radius/:zipcode/:distance; [loc[0].latitude] is
    a [TypeError] when the geocoder returns no place. *)
Definition getBootcampsInRadius (zipcode distance : string) : Handler Sent :=
  match geocode zipcode with
  | [] => stop (Throw "TypeError")
  | loc :: _ =>
      let lat := latitude loc in
      let lng := longitude loc in
      let radius := divide distance 3963 in
      bootcamps ← gets (fun w =>
                     List.filter (centerSphere lng lat radius) (map_to_list (Bootcamps w)).*2);
      mret (SentCount 200 (length bootcamps) bootcamps)
  end.

(** [const { name, email, password, role } = req.body]: the four fields
    that [register] hands to [User.create]. *)
Definition user_fields (body : Doc) : Doc :=
  filter (fun kv : string * string =>
            kv.1 ∈ ["name"; "email"; "password"; "role"]%string) body.

(** POST /api/v1/auth/register *)
Definition register (body : Doc) : Handler Empty_set :=
  user ← create saved_user Users set_Users (user_fields body);
  let token := getSignedJwtToken user.2 in
  stop (Json 200 (TokenBody token)).

End MoreControllers.

(** ** Sample data for the examples *)

(** A world without documents. *)
Definition no_documents : World :=
  {| Bootcamps := ∅; Courses := ∅; Users := ∅; uploads := ∅ |}.

(** One bootcamp with two courses, and a course of another bootcamp. *)
Definition bootcamp_id : string := "5d713995b721c3bb38c1f5d0".

Definition one_bootcamp : World :=
  {| Bootcamps := {[ bootcamp_id := ({[ "name"%string := "Devworks"%string ]} : Doc) ]};
     Courses :=
       {[ "c1"%string := ({[ "bootcamp"%string := bootcamp_id ]} : Doc);
          "c2"%string := ({[ "bootcamp"%string := bootcamp_id ]} : Doc);
          "c3"%string := ({[ "bootcamp"%string := "5d713a66ec8f2b88b8f830b8"%string ]} : Doc) ]};
     Users :=
       {[ "u1"%string := ({[ "email"%string := "john@gmail.com"%string;
                             "password"%string := "123456"%string ]} : Doc) ]};
     uploads := ∅ |}.

Definition sample_env : Env :=
  {| MAX_FILE_UPLOAD := 1000000; FILE_UPLOAD_PATH := "./public/uploads" |}.

(** The extension of a file name, from its last dot on. *)
Fixpoint sample_ext (s : string) : string :=
  match s with
  | EmptyString => EmptyString
  | String c s' =>
      match sample_ext s' with
      | EmptyString => if Ascii.eqb c "." then s else EmptyString
      | e => e
      end
  end.

(** A password check that compares with the stored field. *)
Definition sample_matchPassword (u : Doc) (entered : string) : bool :=
  bool_decide (u !! "password"%string = Some entered).

Definition sample_token (u : Doc) : string := "token".

Definition big_photo : UploadedFile :=
  {| name := "campus.png"; mimetype := "image/png"; size := 2000000 |}.

Definition a_pdf : UploadedFile :=
  {| name := "notes.pdf"; mimetype := "application/pdf"; size := 1000 |}.

(** A store that reads a filter as equalities on string fields, and runs a
    query by filtering, skipping and limiting (in key order). *)
Definition sample_matches (f : qval) (d : Doc) : bool :=
  match f with
  | QObj m =>
      forallb (fun kv =>
                 match snd kv with
                 | QStr s =>
                     bool_decide (d !! string_of_list_ascii (fst kv)
                                  = Some (string_of_list_ascii s))
                 | _ => false
                 end) m
  | _ => false
  end.

Definition count_of (n : number) : nat :=
  match n with
  | Num z => Z.to_nat z
  | _ => 0%nat
  end.

Definition sample_exec (q : Query) (c : Collection) : list Doc :=
  take (count_of (q_limit q))
    (drop (count_of (q_skip q))
       (List.filter (sample_matches (q_filter q)) (map_to_list c).*2)).

Definition two_bootcamps : World :=
  {| Bootcamps :=
       {[ "5d713995b721c3bb38c1f5d0"%string := ({[ "name"%string := "Devworks"%string ]} : Doc);
          "5d713a66ec8f2b88b8f830b8"%string := ({[ "name"%string := "ModernTech"%string ]} : Doc) ]};
     Courses := ∅; Users := ∅; uploads := ∅ |}.

(** [GET /api/v1/bootcamps?name=Devworks&limit=1] *)
Definition by_name : list (text * qval) :=
  [(txt "name", QStr (txt "Devworks")); (txt "limit", QStr (txt "1"))].

(** [GET /api/v1/bootcamps?name=in] *)
Definition named_in : list (text * qval) := [(txt "name", QStr (txt "in"))].

(** [GET /api/v1/bootcamps?averageCost[lte]=10000&page=2] *)
Definition cost_lte : list (text * qval) :=
  [(txt "averageCost", QObj [(txt "lte", QStr (txt "10000"))]); (txt "page", QStr (txt "2"))].

(** [GET /api/v1/bootcamps?select=name,description&sort=-averageCost&page=2&limit=10] *)
Definition only_control : list (text * qval) :=
  [(txt "select", QStr (txt "name,description")); (txt "sort", QStr (txt "-averageCost"));
   (txt "page", QStr (txt "2")); (txt "limit", QStr (txt "10"))].

(** [GET /api/v1/bootcamps?page=-1], [?page[toString]=x] and a limit of
    400 digits, which [parseInt] reads as [Infinity]. *)
Definition page_minus_one : list (text * qval) := [(txt "page", QStr (txt "-1"))].

Definition page_object : list (text * qval) :=
  [(txt "page", QObj [(txt "toString", QStr (txt "x"))])].

Definition limit_huge : list (text * qval) :=
  [(txt "limit", QStr ("1" :: repeat "0" 399))].

(** [GET /api/v1/bootcamps?select[]=name&select[]=description] *)
Definition select_array : list (text * qval) :=
  [(txt "select", QArr [QStr (txt "name"); QStr (txt "description")])].

(** A store that gives a new document a fixed, unused [_id], saves every
    document as it is and accepts every update. *)
Definition sample_new_id (c : Collection) : string := "5d725a1b7b292f5f8ceff788".
Definition sample_saved (d : Doc) : option Doc := Some d.
Definition sample_valid (d : Doc) : bool := true.

Definition a_photo : UploadedFile :=
  {| name := "campus.png"; mimetype := "image/png"; size := 20000 |}.

Definition new_user : Doc :=
  {[ "name"%string := "Mary"%string; "email"%string := "mary@gmail.com"%string;
     "password"%string := "secret1"%string; "admin"%string := "yes"%string ]}.

(** A geocoder that knows one zip code, with coordinates and distances in
    whole numbers, and a sphere test that reads the field [zone]. *)
Definition sample_geocode (zipcode : string) : list (Place Z) :=
  if bool_decide (zipcode = "02118"%string)
  then [{| latitude := 42; longitude := -71 |}]
  else [].

Definition sample_divide (distance : string) (d : Z) : Z := 0.

Definition sample_sphere (lng lat radius : Z) (d : Doc) : bool :=
  bool_decide (d !! "name"%string = Some "Devworks"%string).

(** * Properties *)

(** ** Pagination *)

Example parseInt_examples :
  parseInt (txt "3") = Num 3 /\ parseInt (txt "  42px") = Num 42 /\
  parseInt (txt "-1") = Num (-1) /\ parseInt (txt "abc") = NaN /\
  parseInt (txt "undefined") = NaN /\ parseInt [] = NaN /\
  parseInt (txt "-0") = Num 0 /\
  parseInt (ascii_of_nat 160 :: txt "5") = Num 5 /\
  parseInt (txt "9007199254740993") = Num 9007199254740992 /\
  (parseInt <$> toString (QArr [QStr (txt "7"); QStr (txt "9")])) = Some (Num 7) /\
  (parseInt <$> toString (QObj [(txt "toString", QStr (txt "x"))])) = None.
Proof. repeat split; reflexivity. Qed.

Lemma nearest_double_small z : Z.abs z < 2 ^ 53 -> nearest_double z = Num z.
Proof.
  intros Hz. unfold nearest_double.
  destruct (Z.ltb_spec (Z.abs z) (2 ^ 53)); [reflexivity | lia].
Qed.

Lemma is_double_small z : Z.abs z < 2 ^ 53 -> is_double z = true.
Proof.
  intros Hz. unfold is_double. rewrite (nearest_double_small z Hz). apply Z.eqb_refl.
Qed.

Lemma or_default_not_zero n d : d <> 0 -> or_default n d <> Num 0.
Proof.
  intros Hd. destruct n as [|v|s]; cbn; [congruence | | discriminate].
  destruct (Z.eqb_spec v 0); congruence.
Qed.

Lemma page_number_not_zero query : page_number query <> Some (Num 0).
Proof.
  unfold page_number. destruct (parsed "page" query) as [n|]; [|discriminate].
  cbn. intros [= H]. exact (or_default_not_zero n 1 ltac:(lia) H).
Qed.

Lemma limit_number_not_zero query : limit_number query <> Some (Num 0).
Proof.
  unfold limit_number. destruct (parsed "limit" query) as [n|]; [|discriminate].
  cbn. intros [= H]. exact (or_default_not_zero n 25 ltac:(lia) H).
Qed.

Lemma page_number_page query p : page_number query = Some (Num p) -> page query = p.
Proof. unfold page. intros ->. reflexivity. Qed.

Lemma limit_number_limit query l : limit_number query = Some (Num l) -> limit query = l.
Proof. unfold limit. intros ->. reflexivity. Qed.



(** ** Fetch and delete of one bootcamp *)

(** C2: whatever the id, [getBootcamp] answers 200 with the result of the
    lookup; for an id that matches no bootcamp the body is
    [{success: true, msg: null}] and no 404 is sent. *)
Theorem getBootcamp_always_200 (id : string) (w : World) :
  handle (getBootcamp id) w = (Json 200 (MsgBody (Bootcamps w !! id)), w).
Proof. reflexivity. Qed.

Example getBootcamp_unknown_id :
  handle (getBootcamp "5d713995b721c3bb38c1f5d0") no_documents
  = (Json 200 (MsgBody None), no_documents).
Proof. reflexivity. Qed.

Lemma count_where_deleteMany field value (c : Collection) :
  count_where field value (deleteMany field value c) = 0%nat.
Proof.
  unfold count_where, deleteMany.
  apply map_size_empty_iff, map_eq. intros i.
  rewrite lookup_empty.
  apply map_lookup_filter_None. right. intros d Hd Hf.
  apply map_lookup_filter_Some in Hd as [_ Hn]. exact (Hn Hf).
Qed.

Lemma deleteBootcamp_found (id : string) (w : World) (d : Doc) :
  Bootcamps w !! id = Some d ->
  handle (deleteBootcamp id) w
  = (Json 200 EmptyBody,
     set_Bootcamps (deleteOne id) (set_Courses (deleteMany "bootcamp" id) w)).
Proof.
  intros H.
  unfold handle, deleteBootcamp, findById, gets, mbind, handler_bind.
  rewrite H. reflexivity.
Qed.

(** C9: for a stored bootcamp the delete answers [{success: true, data: {}}],
    the bootcamp is gone and no course refers to its id any more. *)
Theorem deleteBootcamp_cascade (id : string) (w : World) (d : Doc)
    (Hstored : Bootcamps w !! id = Some d) :
  let '(o, w') := handle (deleteBootcamp id) w in
  o = Json 200 EmptyBody /\
  Bootcamps w' !! id = None /\
  count_where "bootcamp" id (Courses w') = 0%nat.
Proof.
  rewrite (deleteBootcamp_found id w d Hstored).
  split; [reflexivity|]. split.
  - cbn. unfold deleteOne. apply lookup_delete_eq.
  - cbn. apply count_where_deleteMany.
Qed.

(** C10: for an id that matches no bootcamp the delete hands a 404
    [ErrorResponse] to [next] and the world, bootcamps and courses
    included, is as before. *)
Theorem deleteBootcamp_unknown_id (id : string) (w : World)
    (Hmissing : Bootcamps w !! id = None) :
  handle (deleteBootcamp id) w
  = (Next {| message := "Bootcamp not found with id of " +:+ id;
             statusCode := Some 404 |}, w).
Proof.
  unfold handle, deleteBootcamp, findById, gets, mbind, handler_bind.
  rewrite Hmissing. reflexivity.
Qed.

Lemma deleteBootcamp_cascade_witness :
  let '(o, w') := handle (deleteBootcamp bootcamp_id) one_bootcamp in
  o = Json 200 EmptyBody /\
  Bootcamps w' !! bootcamp_id = None /\
  count_where "bootcamp" bootcamp_id (Courses w') = 0%nat.
Proof.
  apply (deleteBootcamp_cascade bootcamp_id one_bootcamp
           ({[ "name"%string := "Devworks"%string ]} : Doc)).
  reflexivity.
Defined.

Lemma deleteBootcamp_unknown_id_witness :
  handle (deleteBootcamp "5d725a1b7b292f5f8ceff788") one_bootcamp
  = (Next {| message := "Bootcamp not found with id of 5d725a1b7b292f5f8ceff788";
             statusCode := Some 404 |}, one_bootcamp).
Proof.
  apply (deleteBootcamp_unknown_id "5d725a1b7b292f5f8ceff788" one_bootcamp).
  reflexivity.
Defined.

(** ** Photo upload *)

Section Upload.

Variable path_ext : string -> string.
Variable mv_fails : string -> bool.
Variable env : Env.

(** C6: for a stored bootcamp and an image larger than [MAX_FILE_UPLOAD]
    the handler hands [next] an [ErrorResponse] without status code
    (the constructor gets the message only), not one with 400; nothing is
    stored and nothing persisted. *)
Theorem upload_too_large_no_status (id : string) (w : World) (d : Doc) (file : UploadedFile)
    (Hstored : Bootcamps w !! id = Some d)
    (Himage : String.prefix "image" (mimetype file) = true)
    (Hsize : size file > MAX_FILE_UPLOAD env) :
  handle (bootcampPhotoUpload path_ext mv_fails env id (Some (Some file))) w
  = (Next {| message := "Please upload an image less than " +:+ pretty (MAX_FILE_UPLOAD env);
             statusCode := None |}, w).
Proof.
  unfold handle, bootcampPhotoUpload, findById, gets, mbind, handler_bind.
  rewrite Hstored, Himage. cbn [negb].
  apply Z.gtb_gt in Hsize. rewrite Hsize. reflexivity.
Qed.

(** C8, amended: an upload whose mimetype does not start with [image] to a
    stored bootcamp fails with the 400 [ErrorResponse]; for an id that
    matches no bootcamp the 404 comes first; either way the world is as
    before: nothing is written to the upload directory and no bootcamp
    document changes. *)
Theorem upload_not_an_image (id : string) (w : World) (file : UploadedFile)
    (Hmime : String.prefix "image" (mimetype file) = false) :
  let '(o, w') := handle (bootcampPhotoUpload path_ext mv_fails env id (Some (Some file))) w in
  match Bootcamps w !! id with
  | Some _ => o = Next {| message := "Please upload a file"; statusCode := Some 400 |}
  | None => o = Next {| message := "Bootcamp not found with id of " +:+ id;
                        statusCode := Some 404 |}
  end /\
  w' = w /\ uploads w' = uploads w /\ Bootcamps w' = Bootcamps w.
Proof.
  unfold handle, bootcampPhotoUpload, findById, gets, mbind, handler_bind.
  destruct (Bootcamps w !! id) as [d|]; [rewrite Hmime|]; cbn; auto.
Qed.

End Upload.

Lemma upload_too_large_no_status_witness :
  handle (bootcampPhotoUpload sample_ext (fun _ => false) sample_env bootcamp_id
            (Some (Some big_photo))) one_bootcamp
  = (Next {| message := "Please upload an image less than "
                          +:+ pretty (MAX_FILE_UPLOAD sample_env);
             statusCode := None |}, one_bootcamp).
Proof.
  apply (upload_too_large_no_status sample_ext (fun _ => false) sample_env bootcamp_id
           one_bootcamp ({[ "name"%string := "Devworks"%string ]} : Doc) big_photo).
  - reflexivity.
  - reflexivity.
  - reflexivity.
Defined.

(** C8, as the specification has it, fails for a bootcamp that does not
    exist: the 404 of line 169 is sent before the mimetype is looked at. *)
Lemma upload_unknown_id_not_found :
  String.prefix "image" (mimetype a_pdf) = false /\
  handle (bootcampPhotoUpload sample_ext (fun _ => false) sample_env
            "5d725a1b7b292f5f8ceff788" (Some (Some a_pdf))) one_bootcamp
  = (Next {| message := "Bootcamp not found with id of 5d725a1b7b292f5f8ceff788";
             statusCode := Some 404 |}, one_bootcamp) /\
  ~ (exists e,
       fst (handle (bootcampPhotoUpload sample_ext (fun _ => false) sample_env
                      "5d725a1b7b292f5f8ceff788" (Some (Some a_pdf))) one_bootcamp)
       = Next e /\ statusCode e = Some 400).
Proof.
  split; [reflexivity|]. split; [reflexivity|].
  intros (e & He & Hs). cbn in He. injection He as <-. discriminate Hs.
Qed.

Lemma upload_not_an_image_witness :
  let '(o, w') := handle (bootcampPhotoUpload sample_ext (fun _ => false) sample_env
                            bootcamp_id (Some (Some a_pdf))) one_bootcamp in
  match Bootcamps one_bootcamp !! bootcamp_id with
  | Some _ => o = Next {| message := "Please upload a file"; statusCode := Some 400 |}
  | None => o = Next {| message := "Bootcamp not found with id of " +:+ bootcamp_id;
                        statusCode := Some 404 |}
  end /\
  w' = one_bootcamp /\ uploads w' = uploads one_bootcamp
  /\ Bootcamps w' = Bootcamps one_bootcamp.
Proof.
  apply (upload_not_an_image sample_ext (fun _ => false) sample_env bootcamp_id
           one_bootcamp a_pdf).
  reflexivity.
Defined.

(** ** Login *)

Section Login.

Variable matchPassword : Doc -> string -> bool.
Variable getSignedJwtToken : Doc -> string.

Lemma findOne_none (field value : string) (c : Collection) :
  (forall k u, c !! k = Some u -> u !! field <> Some value) ->
  head (filter (has_field field value) (map_to_list c)) = None.
Proof.
  intros Hnone.
  destruct (filter (has_field field value) (map_to_list c)) as [|[k u] l] eqn:E;
    [reflexivity|].
  assert (Hin : (k, u) ∈ filter (has_field field value) (map_to_list c))
    by (rewrite E; left).
  apply list_elem_of_filter in Hin as [Hf Hin].
  apply elem_of_map_to_list in Hin.
  destruct (Hnone k u Hin Hf).
Qed.

Lemma findOne_some (field value : string) (c : Collection) k u :
  c !! k = Some u -> u !! field = Some value ->
  exists k' u', head (filter (has_field field value) (map_to_list c)) = Some (k', u')
                /\ c !! k' = Some u' /\ u' !! field = Some value.
Proof.
  intros Hk Hu.
  assert (Hin : (k, u) ∈ filter (has_field field value) (map_to_list c)).
  { apply list_elem_of_filter. split; [exact Hu | apply elem_of_map_to_list, Hk]. }
  destruct (filter (has_field field value) (map_to_list c)) as [|[k' u'] l] eqn:E.
  - inversion Hin.
  - exists k', u'. split; [reflexivity|].
    assert (Hin' : (k', u') ∈ filter (has_field field value) (map_to_list c))
      by (rewrite E; left).
    apply list_elem_of_filter in Hin' as [Hf Hin'].
    split; [apply elem_of_map_to_list, Hin' | exact Hf].
Qed.

(** C7, amended: take the email of a stored user with a password that
    matches no user of that email, and the same request on a store where
    no user has the email.  The two runs get the same answer and neither
    changes the world: the 401 [ErrorResponse] with message
    [Invalid credentials] when the email and the password are not empty,
    and the 400 [ErrorResponse] of a missing field when the email is
    empty or the password is empty or absent. *)
Theorem login_invalid_credentials (email : string) (password : option string)
    (w1 w2 : World) (k : string) (u : Doc)
    (Hstored : Users w1 !! k = Some u) (Hu : u !! "email"%string = Some email)
    (Hwrong : forall k' u' p, password = Some p -> Users w1 !! k' = Some u' ->
                              u' !! "email"%string = Some email ->
                              matchPassword u' p = false)
    (Hunknown : forall k' u', Users w2 !! k' = Some u' -> u' !! "email"%string <> Some email) :
  let run1 := handle (login matchPassword getSignedJwtToken (Some email) password) w1 in
  let run2 := handle (login matchPassword getSignedJwtToken (Some email) password) w2 in
  fst run1 = fst run2 /\ snd run1 = w1 /\ snd run2 = w2
  /\ (email <> EmptyString ->
      (exists p, password = Some p /\ p <> EmptyString) ->
      fst run1 = Next {| message := "Invalid credentials"; statusCode := Some 401 |})
  /\ (email = EmptyString \/ password = None \/ password = Some EmptyString ->
      fst run1 = Next {| message := "Please provide an email and password";
                         statusCode := Some 400 |}).
Proof.
  cbv zeta.
  destruct (missing (Some email) || missing password) eqn:Hm.
  - assert (H1 : forall w, handle (login matchPassword getSignedJwtToken (Some email) password) w
                 = (Next {| message := "Please provide an email and password";
                            statusCode := Some 400 |}, w)).
    { intros w. unfold handle, login. rewrite Hm. reflexivity. }
    rewrite !H1. cbn [fst snd]. repeat split.
    intros Hemail (p & -> & Hp). unfold missing in Hm.
    rewrite !bool_decide_eq_false_2 in Hm by assumption. discriminate Hm.
  - assert (Hpresent : email <> EmptyString /\ exists p, password = Some p /\ p <> EmptyString).
    { unfold missing in Hm. apply orb_false_iff in Hm as [He Hp].
      apply bool_decide_eq_false in He. split; [exact He|].
      destruct password as [p|]; [|discriminate Hp].
      apply bool_decide_eq_false in Hp. eauto. }
    destruct Hpresent as (Hemail & p & -> & Hp).
    assert (H1 : handle (login matchPassword getSignedJwtToken (Some email) (Some p)) w1
                 = (Next {| message := "Invalid credentials"; statusCode := Some 401 |}, w1)).
    { unfold handle, login, findOne, gets, mbind, handler_bind. rewrite Hm.
      destruct (findOne_some "email" email (Users w1) k u Hstored Hu)
        as (k' & u' & Hhead & Hk' & Hu').
      cbn [from_option id]. rewrite Hhead, (Hwrong k' u' p eq_refl Hk' Hu'). reflexivity. }
    assert (H2 : handle (login matchPassword getSignedJwtToken (Some email) (Some p)) w2
                 = (Next {| message := "Invalid credentials"; statusCode := Some 401 |}, w2)).
    { unfold handle, login, findOne, gets, mbind, handler_bind. rewrite Hm.
      cbn [from_option id].
      rewrite (findOne_none "email" email (Users w2) Hunknown). reflexivity. }
    rewrite H1, H2. cbn [fst snd]. repeat split.
    intros [He | [Hn | Hn]]; [contradiction | discriminate Hn | congruence].
Qed.

End Login.

Lemma login_invalid_credentials_witness :
  let run1 := handle (login sample_matchPassword sample_token (Some "john@gmail.com"%string)
                        (Some "letmein"%string)) one_bootcamp in
  let run2 := handle (login sample_matchPassword sample_token (Some "john@gmail.com"%string)
                        (Some "letmein"%string)) no_documents in
  fst run1 = fst run2 /\ snd run1 = one_bootcamp /\ snd run2 = no_documents
  /\ fst run1 = Next {| message := "Invalid credentials"; statusCode := Some 401 |}.
Proof.
  cbv zeta.
  destruct (login_invalid_credentials sample_matchPassword sample_token
              "john@gmail.com" (Some "letmein"%string) one_bootcamp no_documents "u1"
              ({[ "email"%string := "john@gmail.com"%string;
                  "password"%string := "123456"%string ]} : Doc))
    as (Hsame & H1 & H2 & H401 & _).
  - reflexivity.
  - reflexivity.
  - intros k' u' p [= <-] Hk Hu. cbn in Hk.
    apply lookup_singleton_Some in Hk as [_ <-]. reflexivity.
  - intros k' u' Hk. cbn in Hk. rewrite lookup_empty in Hk. discriminate.
  - split; [exact Hsame|]. split; [exact H1|]. split; [exact H2|].
    apply H401; [discriminate|]. eexists. split; [reflexivity | discriminate].
Defined.

(** C7, as the specification has it, fails for the empty password: it is
    not the password of the stored user, and the answer to it with the
    user's email is the 400 of a missing field, not a 401. *)
Lemma login_empty_password :
  let answer := handle (login sample_matchPassword sample_token
                          (Some "john@gmail.com"%string) (Some EmptyString)) one_bootcamp in
  (exists u, Users one_bootcamp !! "u1"%string = Some u
             /\ u !! "email"%string = Some "john@gmail.com"%string
             /\ sample_matchPassword u EmptyString = false)
  /\ answer = (Next {| message := "Please provide an email and password";
                       statusCode := Some 400 |}, one_bootcamp)
  /\ fst answer <> Next {| message := "Invalid credentials"; statusCode := Some 401 |}.
Proof.
  cbv zeta. split; [|split].
  - eexists. split; [reflexivity|]. split; reflexivity.
  - reflexivity.
  - discriminate.
Qed.

(** ** The regex, character by character *)

Lemma operators_words :
  Forall (fun alt => forallb is_word alt = true /\ (2 <= length alt)%nat) operators.
Proof. repeat constructor. Qed.

Lemma alt_matches_prev p p' a alt t :
  alt_matches p (a :: alt) t = alt_matches p' (a :: alt) t.
Proof. destruct t; reflexivity. Qed.

Lemma alt_matches_wlen alt : forall p t,
  forallb is_word alt = true -> word_at p = true ->
  alt_matches p alt t = true -> wlen t = length alt.
Proof.
  induction alt as [|a alt IH]; intros p t Hw Hp Hm; cbn in *.
  - unfold boundary in Hm. rewrite Hp in Hm.
    destruct t as [|c t]; [reflexivity|]. cbn in *.
    destruct (is_word c); [discriminate | reflexivity].
  - destruct t as [|c t]; [discriminate|].
    apply andb_prop in Hm as [Hac Hm], Hw as [Ha Hw].
    apply Ascii.eqb_eq in Hac. subst c. cbn. rewrite Ha.
    f_equal. apply (IH (Some a)); assumption.
Qed.

Lemma find_op_here p t :
  List.find (fun alt => alt_matches p alt t) operators = None <-> op_here t = false.
Proof.
  unfold op_here, operators.
  cbn [List.find existsb txt list_ascii_of_string].
  rewrite !(alt_matches_prev p None).
  repeat (destruct (alt_matches None _ t); [split; discriminate|]).
  split; reflexivity.
Qed.

Lemma match_at_Some p t n :
  match_at p t = Some n ->
  (op_here t && xorb (word_at p) (word_at (head t)) = true)
  /\ wlen t = n /\ (2 <= n)%nat.
Proof.
  unfold match_at, boundary.
  destruct (xorb (word_at p) (word_at (head t))) eqn:Hb; [|discriminate].
  destruct (List.find _ operators) as [alt|] eqn:Hf; [|discriminate].
  intros [= <-].
  assert (Hop : op_here t = true).
  { destruct (op_here t) eqn:E; [reflexivity|].
    apply (find_op_here p) in E. congruence. }
  rewrite Hop. split; [reflexivity|].
  apply find_some in Hf as [Hin Hm].
  pose proof operators_words as Hall.
  rewrite Forall_forall in Hall. apply list_elem_of_In in Hin.
  destruct (Hall alt Hin) as [Hw Hlen].
  split; [|exact Hlen].
  destruct alt as [|a alt]; [cbn in Hlen; lia|].
  destruct t as [|c t]; [discriminate|].
  cbn in Hm, Hw. apply andb_prop in Hm as [Hac Hm], Hw as [Ha Hw].
  apply Ascii.eqb_eq in Hac. subst c. cbn. rewrite Ha. f_equal.
  apply (alt_matches_wlen alt (Some a)); assumption.
Qed.

Lemma match_at_None p t :
  match_at p t = None -> op_here t && xorb (word_at p) (word_at (head t)) = false.
Proof.
  unfold match_at, boundary.
  destruct (xorb (word_at p) (word_at (head t))); [|intros _; apply andb_false_r].
  destruct (List.find _ operators) as [alt|] eqn:Hf; [discriminate|].
  intros _. apply find_op_here in Hf. rewrite Hf. reflexivity.
Qed.

(** The replacement is the scan that puts a dollar sign wherever the
    regex matches and copies every character. *)
Lemma replace_from_dollars t : forall p k,
  (k <= wlen t)%nat -> (k <> 0%nat -> word_at p = true) ->
  replace_from p k t = dollars is_word (word_at p) t.
Proof.
  induction t as [|c t IH]; intros p k Hk Hp; [reflexivity|].
  cbn [replace_from dollars].
  destruct k as [|k].
  - destruct (match_at p (c :: t)) as [n|] eqn:Hm.
    + apply match_at_Some in Hm as (Hc & Hn & H2). cbn [head word_at from_option] in Hc.
      rewrite Hc. cbn [app]. f_equal. f_equal.
      cbn in Hn. destruct (is_word c) eqn:Hw; [|lia].
      rewrite (IH (Some c) (n - 1)%nat); [cbn; rewrite Hw; reflexivity | lia |].
      intros _. exact Hw.
    + apply match_at_None in Hm. cbn [head word_at from_option] in Hm.
      rewrite Hm. cbn [app]. f_equal.
      apply (IH (Some c) 0%nat); [lia | congruence].
  - cbn in Hk. destruct (is_word c) eqn:Hw; [|lia].
    rewrite (Hp ltac:(discriminate)). cbn [xorb]. rewrite andb_false_r. cbn [app].
    f_equal. rewrite (IH (Some c) k); [cbn; rewrite Hw; reflexivity | lia |].
    intros _. exact Hw.
Qed.

Lemma replace_operators_dollars t : replace_operators t = dollars is_word false t.
Proof. apply (replace_from_dollars t None 0%nat); [lia | congruence]. Qed.

Lemma word_neq a c : is_word a = true -> is_word c = false -> Ascii.eqb a c = false.
Proof. intros Ha Hc. destruct (Ascii.eqb_spec a c); [congruence | reflexivity]. Qed.

(** A match is decided by the text up to the first character that is not
    a word character. *)
Lemma alt_matches_local alt : forall p a rest,
  forallb is_word alt = true -> word_at (head rest) = false ->
  alt_matches p alt (a ++ rest) = alt_matches p alt a.
Proof.
  induction alt as [|x alt IH]; intros p a rest Hw Hr; cbn in Hw |- *.
  - unfold boundary. destruct a; [cbn; rewrite Hr|]; reflexivity.
  - apply andb_prop in Hw as [Hx Hw].
    destruct a as [|y a]; cbn.
    + destruct rest as [|c b]; [reflexivity|].
      cbn in Hr. rewrite (word_neq x c Hx Hr). reflexivity.
    + f_equal. apply IH; assumption.
Qed.

Lemma op_here_local a rest :
  word_at (head rest) = false -> op_here (a ++ rest) = op_here a.
Proof.
  intros Hr. unfold op_here, operators. cbn [existsb].
  rewrite !alt_matches_local by (reflexivity || exact Hr). reflexivity.
Qed.

Lemma op_here_nonword c t : is_word c = false -> op_here (c :: t) = false.
Proof. intros Hc. apply (op_here_local [] (c :: t)). exact Hc. Qed.

Lemma dollars_nonword joins w c t :
  is_word c = false -> dollars joins w (c :: t) = c :: dollars joins (joins c) t.
Proof. intros Hc. cbn [dollars]. rewrite (op_here_nonword c t Hc). reflexivity. Qed.

Lemma dollars_app joins a : forall w rest,
  word_at (head rest) = false ->
  dollars joins w (a ++ rest) = dollars joins w a ++ dollars joins false rest.
Proof.
  induction a as [|y a IH]; intros w rest Hr.
  - destruct rest as [|c b]; [reflexivity|].
    cbn in Hr. cbn [app]. rewrite !dollars_nonword by exact Hr. reflexivity.
  - cbn [app dollars].
    change (y :: a ++ rest) with ((y :: a) ++ rest).
    rewrite (op_here_local (y :: a) rest Hr), <- app_assoc. cbn [app].
    do 2 f_equal. apply IH, Hr.
Qed.

(** *** What [JSON.stringify] does to one character *)

Ltac each_char c := destruct c as [[] [] [] [] [] [] [] []].

Lemma quote_char_word c : is_word c = true -> quote_char c = [c] /\ is_control c = false.
Proof. each_char c; intros H; try discriminate H; split; reflexivity. Qed.

Lemma quote_char_head c :
  is_word c = false -> word_at (head (quote_char c)) = false /\ quote_char c <> [].
Proof. each_char c; intros H; try discriminate H; split; (reflexivity || discriminate). Qed.

Lemma parse_chars_quote_char c t :
  parse_chars (quote_char c ++ t) = push c (parse_chars t).
Proof. each_char c; reflexivity. Qed.

Lemma op_here_first x t : starts_op x = false -> op_here (x :: t) = false.
Proof.
  unfold starts_op, op_here, operators. intros H.
  apply orb_false_elim in H as [H Hi]. apply orb_false_elim in H as [Hg Hl].
  cbn [existsb alt_matches txt list_ascii_of_string].
  rewrite (Ascii.eqb_sym "g" x), (Ascii.eqb_sym "l" x), (Ascii.eqb_sym "i" x), Hg, Hl, Hi.
  reflexivity.
Qed.

Lemma dollars_plain e : forall w t,
  forallb (fun x => negb (starts_op x)) e = true ->
  dollars is_word w (e ++ t)
  = e ++ dollars is_word (fold_left (fun _ x => is_word x) e w) t.
Proof.
  induction e as [|x e IH]; intros w t He; [reflexivity|].
  cbn in He. apply andb_prop in He as [Hx He]. apply negb_true_iff in Hx.
  cbn [app dollars fold_left]. rewrite (op_here_first x _ Hx). cbn [andb app].
  f_equal. apply IH, He.
Qed.

(** The JSON form of a character that is not a word character holds no
    character an operator starts with, and ends in a word character
    exactly when the character is a control character. *)
Lemma quote_char_plain c w :
  is_word c = false ->
  forallb (fun x => negb (starts_op x)) (quote_char c) = true
  /\ fold_left (fun _ x => is_word x) (quote_char c) w = is_control c.
Proof. each_char c; intros H; try discriminate H; destruct w; split; reflexivity. Qed.

Lemma dollars_quote_char c w t :
  is_word c = false ->
  dollars is_word w (quote_char c ++ t) = quote_char c ++ dollars is_word (is_control c) t.
Proof.
  intros Hc. destruct (quote_char_plain c w Hc) as [Hp Hs].
  rewrite (dollars_plain _ w t Hp), Hs. reflexivity.
Qed.

Lemma quote_body_app a b : quote_body (a ++ b) = quote_body a ++ quote_body b.
Proof.
  induction a as [|c a IH]; [reflexivity|].
  cbn. rewrite IH. apply app_assoc.
Qed.

Lemma alt_matches_quote alt : forall p s,
  forallb is_word alt = true ->
  alt_matches p alt (quote_body s) = alt_matches p alt s.
Proof.
  induction alt as [|x alt IH]; intros p s Hw; cbn in Hw |- *.
  - unfold boundary. f_equal.
    destruct s as [|c s]; [reflexivity|]. cbn [quote_body head].
    destruct (is_word c) eqn:Hc.
    + destruct (quote_char_word c Hc) as [-> _]. reflexivity.
    + destruct (quote_char_head c Hc) as [Hh Hne].
      destruct (quote_char c); [contradiction|]. cbn in Hh |- *. congruence.
  - apply andb_prop in Hw as [Hx Hw].
    destruct s as [|c s]; [reflexivity|]. cbn [quote_body].
    destruct (is_word c) eqn:Hc.
    + destruct (quote_char_word c Hc) as [-> _]. cbn. f_equal. apply IH, Hw.
    + destruct (quote_char_head c Hc) as [Hh Hne].
      destruct (quote_char c) as [|h r]; [contradiction|]. cbn in Hh |- *.
      rewrite (word_neq x h Hx Hh), (word_neq x c Hx Hc). reflexivity.
Qed.

Lemma op_here_quote s : op_here (quote_body s) = op_here s.
Proof.
  unfold op_here, operators. cbn [existsb].
  rewrite !alt_matches_quote by reflexivity. reflexivity.
Qed.

(** Between the quotes of a JSON string the regex does what [dollars]
    does on the string itself, with a control character joining the word
    that follows. *)
Lemma dollars_quote_body s : forall w,
  dollars is_word w (quote_body s)
  = quote_body (dollars (fun c => is_word c || is_control c) w s).
Proof.
  induction s as [|c s IH]; intros w; [reflexivity|].
  cbn [quote_body dollars].
  destruct (is_word c) eqn:Hc.
  - destruct (quote_char_word c Hc) as [Hq Hctl].
    assert (Hop : op_here (c :: quote_body s) = op_here (c :: s)).
    { rewrite <- (op_here_quote (c :: s)). cbn [quote_body]. rewrite Hq. reflexivity. }
    rewrite quote_body_app. cbn [quote_body]. rewrite Hq. cbn [app dollars orb].
    rewrite Hop, Hc, IH.
    destruct (op_here (c :: s) && xorb w true); reflexivity.
  - rewrite (dollars_quote_char c w _ Hc), (op_here_nonword c s Hc).
    cbn [andb app orb quote_body]. rewrite IH. reflexivity.
Qed.

(** ** The regex on the text of a query *)

Lemma dollars_sep w c t :
  is_word c = false -> dollars is_word w (c :: t) = c :: dollars is_word false t.
Proof. intros Hc. rewrite dollars_nonword by exact Hc. rewrite Hc. reflexivity. Qed.

Lemma dollars_quote s rest :
  word_at (head rest) = false ->
  dollars is_word false (quote s ++ rest) = quote (mark s) ++ dollars is_word false rest.
Proof.
  intros Hr. unfold quote, mark. cbn [app]. rewrite <- !app_assoc. cbn [app].
  rewrite dollars_sep by reflexivity.
  rewrite dollars_app by reflexivity.
  rewrite dollars_quote_body, dollars_sep by reflexivity.
  reflexivity.
Qed.

Lemma dollars_join {A} (f g : A -> text) (l : list A) :
  Forall (fun x => forall rest, word_at (head rest) = false ->
            dollars is_word false (f x ++ rest) = g x ++ dollars is_word false rest) l ->
  forall rest, word_at (head rest) = false ->
  dollars is_word false (join [","] (List.map f l) ++ rest)
  = join [","] (List.map g l) ++ dollars is_word false rest.
Proof.
  induction 1 as [|x l Hx Hl IH]; intros rest Hr; [reflexivity|].
  destruct l as [|y l].
  - cbn. apply Hx, Hr.
  - change (join [","] (List.map f (x :: y :: l)))
      with (f x ++ "," :: join [","] (List.map f (y :: l))).
    change (join [","] (List.map g (x :: y :: l)))
      with (g x ++ "," :: join [","] (List.map g (y :: l))).
    rewrite <- !app_assoc. cbn [app].
    rewrite Hx by reflexivity.
    rewrite dollars_sep by reflexivity.
    rewrite (IH rest Hr). reflexivity.
Qed.

(** On the text of a value the regex yields the text of the value with
    every key and every string marked. *)
Lemma dollars_stringify v : forall rest,
  word_at (head rest) = false ->
  dollars is_word false (stringify v ++ rest)
  = stringify (mark_value v) ++ dollars is_word false rest.
Proof.
  induction v as [s | l IH | m IH] using qval_induction; intros rest Hr.
  - apply dollars_quote, Hr.
  - cbn [stringify mark_value app]. rewrite <- !app_assoc. cbn [app].
    rewrite dollars_sep by reflexivity.
    rewrite (dollars_join stringify (fun x => stringify (mark_value x)) l IH) by reflexivity.
    rewrite dollars_sep by reflexivity.
    rewrite List.map_map. reflexivity.
  - assert (Hm : Forall (fun kv : text * qval => forall rest', word_at (head rest') = false ->
                   dollars is_word false
                     ((let '(k, x) := kv in quote k ++ ":" :: stringify x) ++ rest')
                   = (let '(k, x) := kv in quote (mark k) ++ ":" :: stringify (mark_value x))
                     ++ dollars is_word false rest') m).
    { eapply Forall_impl; [exact IH|].
      intros [k x] Hx rest' Hr'. cbn [snd] in Hx.
      rewrite <- !app_assoc. cbn [app].
      rewrite dollars_quote by reflexivity.
      rewrite dollars_sep by reflexivity.
      rewrite (Hx rest' Hr'). reflexivity. }
    cbn [stringify mark_value app]. rewrite <- !app_assoc. cbn [app].
    rewrite dollars_sep by reflexivity.
    rewrite (dollars_join _ _ m Hm) by reflexivity.
    rewrite dollars_sep by reflexivity.
    rewrite List.map_map. do 3 f_equal.
    apply List.map_ext. intros [k x]. reflexivity.
Qed.

(** ** [JSON.parse] after [JSON.stringify] *)

Lemma parse_chars_quote_body s rest :
  parse_chars (quote_body s ++ dquote :: rest) = Some (s, rest).
Proof.
  induction s as [|c s IH]; [reflexivity|].
  cbn [quote_body]. rewrite <- app_assoc, parse_chars_quote_char, IH. reflexivity.
Qed.

Lemma value_start_cases t :
  value_start t = true ->
  exists c t', t = c :: t' /\ (c = dquote \/ c = "[" \/ c = "{")%char.
Proof.
  destruct t as [|c t]; [discriminate|]. cbn. intros H.
  exists c, t. split; [reflexivity|].
  apply orb_prop in H as [H | H]; [apply orb_prop in H as [H | H]|];
    apply Ascii.eqb_eq in H; auto.
Qed.

Lemma value_start_stringify v rest : value_start (stringify v ++ rest) = true.
Proof. destruct v; reflexivity. Qed.

Lemma value_start_join l rest :
  l <> [] -> value_start (join [","] (List.map stringify l) ++ rest) = true.
Proof.
  destruct l as [|x [|y l]]; [congruence | |]; intros _.
  - apply value_start_stringify.
  - change (join [","] (List.map stringify (x :: y :: l)))
      with (stringify x ++ "," :: join [","] (List.map stringify (y :: l))).
    rewrite <- app_assoc. apply value_start_stringify.
Qed.

Lemma parse_value_string f s rest :
  parse_value (S f) (quote s ++ rest) = Some (QStr s, rest).
Proof.
  unfold quote. cbn [app]. rewrite <- app_assoc. cbn [app].
  change (parse_value (S f) (dquote :: quote_body s ++ dquote :: rest))
    with (match parse_chars (quote_body s ++ dquote :: rest) with
          | Some (s, r) => Some (QStr s, r)
          | None => None
          end).
  rewrite parse_chars_quote_body. reflexivity.
Qed.

Lemma parse_value_array f t :
  value_start t = true ->
  parse_value (S f) ("[" :: t)
  = match parse_elements f t with
    | Some (l, r) => Some (QArr l, r)
    | None => None
    end.
Proof.
  intros H. apply value_start_cases in H as (c & t' & -> & [-> | [-> | ->]]); reflexivity.
Qed.

Lemma parse_value_object f t :
  value_start t = true ->
  parse_value (S f) ("{" :: t)
  = match parse_members f t with
    | Some (m, r) => Some (QObj m, r)
    | None => None
    end.
Proof.
  intros H. apply value_start_cases in H as (c & t' & -> & [-> | [-> | ->]]); reflexivity.
Qed.

Lemma parse_elements_last f t v r :
  parse_value f t = Some (v, "]" :: r) -> parse_elements (S f) t = Some ([v], r).
Proof. intros H. cbn [parse_elements]. rewrite H. reflexivity. Qed.

Lemma parse_elements_more f t v r l r' :
  parse_value f t = Some (v, "," :: r) -> parse_elements f r = Some (l, r') ->
  parse_elements (S f) t = Some (v :: l, r').
Proof.
  intros H H'. cbn [parse_elements]. rewrite H.
  change (skip_space ("," :: r)) with ("," :: r). cbv iota. rewrite H'. reflexivity.
Qed.

Lemma parse_member f k t :
  parse_members (S f) (quote k ++ ":" :: t)
  = match parse_value f t with
    | Some (v, r) =>
        match skip_space r with
        | "," :: r' =>
            match parse_members f r' with
            | Some (m, r'') => Some ((k, v) :: m, r'')
            | None => None
            end
        | "}" :: r' => Some ([(k, v)], r')
        | _ => None
        end
    | None => None
    end.
Proof.
  unfold quote. cbn [app]. rewrite <- app_assoc. cbn [app].
  change (parse_members (S f) (dquote :: quote_body k ++ dquote :: ":" :: t))
    with (match parse_chars (quote_body k ++ dquote :: ":" :: t) with
          | Some (k, r) =>
              match skip_space r with
              | ":" :: r' =>
                  match parse_value f r' with
                  | Some (v, r'') =>
                      match skip_space r'' with
                      | "," :: r3 =>
                          match parse_members f r3 with
                          | Some (m, r4) => Some ((k, v) :: m, r4)
                          | None => None
                          end
                      | "}" :: r3 => Some ([(k, v)], r3)
                      | _ => None
                      end
                  | None => None
                  end
              | _ => None
              end
          | None => None
          end).
  rewrite parse_chars_quote_body. reflexivity.
Qed.

Lemma parse_elements_join (l : list qval) :
  Forall (fun v => forall f rest, (weight v <= f)%nat ->
            parse_value f (stringify v ++ rest) = Some (v, rest)) l ->
  l <> [] ->
  forall f rest,
    (list_sum (List.map (fun x => S (weight x)) l) <= f)%nat ->
    parse_elements f (join [","] (List.map stringify l) ++ "]" :: rest) = Some (l, rest).
Proof.
  induction 1 as [|x l Hx Hl IH]; [congruence|]. intros _ f rest Hf.
  destruct f as [|f]; [cbn in Hf; lia|].
  destruct l as [|y l].
  - cbn in Hf |- *. apply parse_elements_last, Hx. lia.
  - change (join [","] (List.map stringify (x :: y :: l)))
      with (stringify x ++ "," :: join [","] (List.map stringify (y :: l))).
    rewrite <- app_assoc. cbn [app].
    cbn [List.map list_sum fold_right] in Hf.
    eapply parse_elements_more.
    + apply Hx. lia.
    + apply IH; [discriminate|]. cbn [List.map list_sum fold_right]. lia.
Qed.

Lemma parse_members_join (m : list (text * qval)) :
  Forall (fun kv => forall f rest, (weight (snd kv) <= f)%nat ->
            parse_value f (stringify (snd kv) ++ rest) = Some (snd kv, rest)) m ->
  m <> [] ->
  forall f rest,
    (list_sum (List.map (fun kv : text * qval => let '(_, x) := kv in S (weight x)) m) <= f)%nat ->
    parse_members f
      (join [","] (List.map (fun kv : text * qval =>
                               let '(k, x) := kv in quote k ++ ":" :: stringify x) m)
       ++ "}" :: rest)
    = Some (m, rest).
Proof.
  induction 1 as [|[k x] m Hx Hm IH]; [congruence|]. intros _ f rest Hf.
  destruct f as [|f]; [cbn in Hf; lia|].
  cbn [snd] in Hx.
  destruct m as [|[k' y] m].
  - cbn in Hf. cbn [List.map join]. rewrite <- app_assoc. cbn [app].
    rewrite parse_member, Hx by lia. reflexivity.
  - change (join [","] (List.map ?g ((k, x) :: (k', y) :: m)))
      with (g (k, x) ++ "," :: join [","] (List.map g ((k', y) :: m))).
    cbv beta iota. rewrite <- !app_assoc. cbn [app].
    cbn [List.map list_sum fold_right] in Hf.
    rewrite parse_member, Hx by lia.
    change (skip_space ("," :: ?r)) with ("," :: r). cbv iota.
    rewrite IH; [reflexivity | discriminate |]. cbn [List.map list_sum fold_right]. lia.
Qed.

(** With fuel for its weight, the parser reads the text of a value back,
    whatever follows. *)
Lemma parse_value_stringify v : forall f rest,
  (weight v <= f)%nat -> parse_value f (stringify v ++ rest) = Some (v, rest).
Proof.
  induction v as [s | l IH | m IH] using qval_induction; intros f rest Hf;
    (destruct f as [|f]; [cbn in Hf; lia|]).
  - apply parse_value_string.
  - cbn [stringify app]. rewrite <- app_assoc. cbn [app].
    destruct l as [|x l]; [reflexivity|].
    rewrite parse_value_array by (apply value_start_join; discriminate).
    rewrite (parse_elements_join (x :: l) IH); [reflexivity | discriminate |].
    cbn [weight List.map list_sum fold_right] in Hf |- *. lia.
  - cbn [stringify app]. rewrite <- app_assoc. cbn [app].
    destruct m as [|[k x] m]; [reflexivity|].
    rewrite parse_value_object.
    + rewrite (parse_members_join ((k, x) :: m) IH); [reflexivity | discriminate |].
      cbn [weight List.map list_sum fold_right] in Hf |- *. lia.
    + destruct m; reflexivity.
Qed.

Lemma weight_join {A} (w : A -> nat) (f : A -> text) (l : list A) :
  Forall (fun x => (w x <= length (f x))%nat) l ->
  (list_sum (List.map (fun x => S (w x)) l) <= S (length (join [","] (List.map f l))))%nat.
Proof.
  induction 1 as [|x l Hx Hl IH]; [cbn; lia|].
  destruct l as [|y l].
  - cbn. lia.
  - change (join [","] (List.map f (x :: y :: l)))
      with (f x ++ "," :: join [","] (List.map f (y :: l))).
    rewrite length_app. cbn [length List.map list_sum fold_right] in IH |- *. lia.
Qed.

Lemma weight_length v : (weight v <= length (stringify v))%nat.
Proof.
  induction v as [s | l IH | m IH] using qval_induction.
  - unfold stringify, quote. cbn [weight length]. lia.
  - cbn [weight stringify length]. rewrite length_app. cbn [length].
    pose proof (weight_join weight stringify l IH). lia.
  - cbn [weight stringify length]. rewrite length_app. cbn [length].
    pose proof (weight_join (fun kv : text * qval => weight (snd kv))
                  (fun kv : text * qval => let '(k, x) := kv in quote k ++ ":" :: stringify x) m) as H.
    assert (Hm : Forall (fun kv : text * qval =>
                   (weight (snd kv)
                    <= length (let '(k, x) := kv in quote k ++ ":" :: stringify x))%nat) m).
    { eapply Forall_impl; [exact IH|]. intros [k x] Hx. cbn [snd] in Hx |- *.
      rewrite length_app. cbn [length]. lia. }
    specialize (H Hm).
    replace (List.map (fun kv : text * qval => let '(_, x) := kv in S (weight x)) m)
      with (List.map (fun kv : text * qval => S (weight (snd kv))) m)
      by (apply List.map_ext; intros [k x]; reflexivity).
    lia.
Qed.

Theorem JSON_parse_stringify v : JSON_parse (stringify v) = Some v.
Proof.
  unfold JSON_parse.
  rewrite <- (app_nil_r (stringify v)) at 2.
  rewrite parse_value_stringify; [reflexivity|].
  pose proof (weight_length v). lia.
Qed.

(** ** The filter translation *)

(** The filter handed to [Bootcamp.find] is the query without the control
    keys, every key and string of it marked; [JSON.parse] does not fail. *)
Lemma find_filter_mark_value (query : list (text * qval)) :
  find_filter query = Some (mark_value (QObj (reqQuery query))).
Proof.
  unfold find_filter, queryStr.
  rewrite replace_operators_dollars.
  rewrite <- (app_nil_r (stringify _)).
  rewrite dollars_stringify by reflexivity.
  cbn [dollars]. rewrite app_nil_r.
  apply JSON_parse_stringify.
Qed.

Lemma dollars_in_word joins t :
  (forall c, is_word c = true -> joins c = true) ->
  forallb is_word t = true -> dollars joins true t = t.
Proof.
  intros Hj. induction t as [|c t IH]; [reflexivity|].
  cbn [forallb dollars]. intros H. apply andb_prop in H as [Hc Ht].
  rewrite Hc, (Hj c Hc), IH by exact Ht.
  cbn [xorb]. rewrite andb_false_r. reflexivity.
Qed.

Lemma alt_matches_token alt : forall p t,
  forallb is_word t = true -> word_at p = true ->
  alt_matches p alt t = text_eqb alt t.
Proof.
  unfold text_eqb.
  induction alt as [|a alt IH]; intros p t Ht Hp.
  - cbn [alt_matches]. unfold boundary. rewrite Hp.
    destruct t as [|c t]; [reflexivity|].
    cbn in Ht |- *. apply andb_prop in Ht as [-> _].
    symmetry. apply bool_decide_eq_false. discriminate.
  - destruct t as [|c t]; cbn [alt_matches].
    + symmetry. apply bool_decide_eq_false. discriminate.
    + cbn in Ht. apply andb_prop in Ht as [Hc Ht].
      rewrite (IH (Some c) t Ht Hc).
      destruct (Ascii.eqb_spec a c) as [-> | Hne]; cbn [andb].
      * apply bool_decide_ext. split; [intros ->; reflexivity | intros [= ->]; reflexivity].
      * symmetry. apply bool_decide_eq_false. intros [= -> _]. contradiction.
Qed.

Lemma alt_matches_token_cons a alt p t :
  forallb is_word t = true -> alt_matches p (a :: alt) t = text_eqb (a :: alt) t.
Proof.
  intros Ht. unfold text_eqb. destruct t as [|c t]; cbn [alt_matches].
  - symmetry. apply bool_decide_eq_false. discriminate.
  - cbn in Ht. apply andb_prop in Ht as [Hc Ht].
    rewrite (alt_matches_token alt (Some c) t Ht Hc). unfold text_eqb.
    destruct (Ascii.eqb_spec a c) as [-> | Hne]; cbn [andb].
    + apply bool_decide_ext. split; [intros ->; reflexivity | intros [= ->]; reflexivity].
    + symmetry. apply bool_decide_eq_false. intros [= -> _]. contradiction.
Qed.

Lemma op_here_token tok : forallb is_word tok = true -> op_here tok = is_operator tok.
Proof.
  intros Ht. unfold op_here, is_operator.
  assert (Hext : existsb (fun alt => alt_matches None alt tok) operators
                 = existsb (fun alt => text_eqb alt tok) operators).
  { unfold operators. cbn [existsb txt list_ascii_of_string].
    rewrite !alt_matches_token_cons by exact Ht. reflexivity. }
  rewrite Hext. clear Hext.
  destruct (existsb _ operators) eqn:E; symmetry.
  - apply bool_decide_eq_true. apply existsb_exists in E as (alt & Hin & Heq).
    apply bool_decide_eq_true in Heq. subst alt. apply list_elem_of_In, Hin.
  - apply bool_decide_eq_false. intros Hin. apply list_elem_of_In in Hin.
    enough (existsb (fun alt => text_eqb alt tok) operators = true) by congruence.
    apply existsb_exists. exists tok. split; [exact Hin|].
    apply bool_decide_eq_true. reflexivity.
Qed.

(** A token, a run of word characters, gets the dollar sign exactly when
    it is one of the five operators. *)
Lemma mark_token tok :
  forallb is_word tok = true ->
  mark tok = if is_operator tok then "$" :: tok else tok.
Proof.
  intros Ht. rewrite <- (op_here_token tok Ht).
  destruct tok as [|c tok]; [reflexivity|].
  unfold mark. cbn [dollars].
  cbn in Ht. apply andb_prop in Ht as [Hc Ht].
  rewrite Hc. cbn [xorb orb]. rewrite andb_true_r.
  rewrite dollars_in_word; [| intros c' ->; reflexivity | exact Ht].
  destruct (op_here (c :: tok)); reflexivity.
Qed.

(** ** Marked names stay distinct

    [JSON.parse] keeps one member for a name that occurs twice.  The names
    of an object of the query are distinct, and marking keeps them so:
    the object parsed has the members of the text, one for one. *)

Section Strip.

Variable joins : ascii -> bool.
Hypothesis joins_word : forall c, is_word c = true -> joins c = true.
Hypothesis joins_dollar : joins "$" = false.

Lemma dollars_true_cons c t :
  dollars joins true (c :: t) = c :: dollars joins (joins c) t.
Proof.
  cbn [dollars]. destruct (is_word c) eqn:Hc.
  - cbn [xorb]. rewrite andb_false_r. reflexivity.
  - rewrite (op_here_nonword c t Hc). reflexivity.
Qed.

Lemma alt_matches_dollars alt : forall p t,
  forallb is_word alt = true ->
  alt_matches p alt (dollars joins true t) = alt_matches p alt t.
Proof.
  induction alt as [|a alt IH]; intros p t Hw.
  - cbn [alt_matches]. unfold boundary.
    destruct t as [|c t]; [reflexivity|]. rewrite dollars_true_cons. reflexivity.
  - cbn in Hw. apply andb_prop in Hw as [Ha Hw].
    destruct t as [|c t]; [reflexivity|].
    rewrite dollars_true_cons. cbn [alt_matches].
    destruct (Ascii.eqb_spec a c) as [<- | Hne]; [|reflexivity].
    rewrite (joins_word a Ha). cbn [andb]. apply IH, Hw.
Qed.

Lemma op_here_dollars_true t : op_here (dollars joins true t) = op_here t.
Proof.
  unfold op_here, operators. cbn [existsb].
  rewrite !alt_matches_dollars by reflexivity. reflexivity.
Qed.

Lemma op_here_dollars_false t : op_here (dollars joins false t) = false.
Proof.
  destruct t as [|c t]; [reflexivity|].
  cbn [dollars].
  destruct (op_here (c :: t)) eqn:Hop; cbn [andb].
  - destruct (is_word c) eqn:Hc; cbn [xorb app].
    + apply op_here_nonword. reflexivity.
    + rewrite (op_here_nonword c t Hc) in Hop. discriminate.
  - cbn [app]. rewrite <- dollars_true_cons, op_here_dollars_true. exact Hop.
Qed.

Lemma strip_dollars s : forall w, strip (dollars joins w s) = s.
Proof.
  induction s as [|c s IH]; intros w; [reflexivity|].
  cbn [dollars].
  destruct (op_here (c :: s) && xorb w (is_word c)) eqn:Hb; cbn [app strip].
  - apply andb_prop in Hb as [Hop _].
    assert (Hc : is_word c = true).
    { destruct (is_word c) eqn:Hc; [reflexivity|].
      rewrite (op_here_nonword c s Hc) in Hop. discriminate. }
    rewrite <- dollars_true_cons, op_here_dollars_true, Hop.
    change (Ascii.eqb "$" "$") with true.
    rewrite (word_neq c "$" Hc eq_refl). cbn [andb]. f_equal. apply IH.
  - destruct (Ascii.eqb_spec c "$") as [-> | Hne]; cbn [andb].
    + rewrite joins_dollar, op_here_dollars_false. f_equal. apply IH.
    + f_equal. apply IH.
Qed.

End Strip.

Lemma strip_mark s : strip (mark s) = s.
Proof.
  unfold mark. apply strip_dollars; [|reflexivity].
  intros c ->. reflexivity.
Qed.

Lemma mark_inj a b : mark a = mark b -> a = b.
Proof. intros H. rewrite <- (strip_mark a), <- (strip_mark b), H. reflexivity. Qed.

Lemma keys_marked (m : list (text * qval)) :
  keys (List.map (fun kv : text * qval => let '(k, x) := kv in (mark k, mark_value x)) m)
  = List.map mark (keys m).
Proof.
  unfold keys. rewrite !List.map_map. apply List.map_ext. intros [k x]. reflexivity.
Qed.

(** The names of a marked object are distinct when those of the object
    are. *)
Lemma mark_keys_distinct (m : list (text * qval)) :
  NoDup (keys m) ->
  NoDup (keys (List.map (fun kv : text * qval =>
                           let '(k, x) := kv in (mark k, mark_value x)) m)).
Proof.
  intros H. rewrite keys_marked.
  assert (Hinj : Inj (=) (=) mark) by (intros a b; apply mark_inj).
  change (List.map mark (keys m)) with (mark <$> keys m).
  apply (NoDup_fmap_2 mark), H.
Qed.

Lemma delete_member_keys key (m : list (text * qval)) :
  NoDup (keys m) -> NoDup (keys (delete_member key m)).
Proof.
  unfold keys, delete_member.
  induction m as [|[k x] m IH]; [intros _; constructor|].
  cbn [List.map List.filter fst]. intros H. apply NoDup_cons in H as [Hk H].
  destruct (negb (text_eqb k key)); [|apply IH, H].
  cbn [List.map fst]. apply NoDup_cons. split; [|apply IH, H].
  intros Hin. apply Hk.
  apply list_elem_of_In, in_map_iff in Hin as ([k' x'] & Heq & Hin).
  apply filter_In in Hin as [Hin _]. cbn in Heq. subst k'.
  apply list_elem_of_In, in_map_iff. exists (k, x'). split; [reflexivity | exact Hin].
Qed.

(** X1: marking never makes two names one: the filter of a query whose
    names are distinct has distinct names, so no condition is lost when
    [JSON.parse] builds the object. *)
Lemma find_filter_keys_distinct (query : list (text * qval)) :
  NoDup (keys query) ->
  exists m, find_filter query = Some (QObj m) /\ NoDup (keys m).
Proof.
  intros H. rewrite find_filter_mark_value. cbn [mark_value].
  eexists. split; [reflexivity|].
  apply mark_keys_distinct.
  unfold reqQuery, removeFields. cbn [fold_left].
  repeat apply delete_member_keys. exact H.
Qed.

Lemma find_filter_keys_distinct_witness :
  exists m, find_filter cost_lte = Some (QObj m) /\ NoDup (keys m).
Proof.
  apply (find_filter_keys_distinct cost_lte).
  unfold cost_lte, keys. cbn [List.map fst].
  apply NoDup_cons. split; [|apply NoDup_singleton].
  intros Hin. apply list_elem_of_singleton in Hin. vm_compute in Hin. discriminate Hin.
Defined.

(** On a nested operator key the code and the specification agree. *)
Example nested_operator_translated :
  find_filter cost_lte
  = Some (QObj [(txt "averageCost", QObj [(txt "$lte", QStr (txt "10000"))])])
  /\ find_filter cost_lte = Some (translate_spec cost_lte).
Proof. split; vm_compute; reflexivity. Qed.

(** C3, as the specification has it, fails for a literal value that is an
    operator keyword, and for a field name that is one: [?name=in] asks
    for the bootcamps named [in], and the filter built is
    [{name: "$in"}]; [?in=stock] gives [{"$in": "stock"}]. *)
Lemma operator_as_value_rewritten :
  find_filter named_in = Some (QObj [(txt "name", QStr (txt "$in"))]) /\
  translate_spec named_in = QObj [(txt "name", QStr (txt "in"))] /\
  find_filter named_in <> Some (translate_spec named_in) /\
  find_filter [(txt "in", QStr (txt "stock"))]
  = Some (QObj [(txt "$in", QStr (txt "stock"))]) /\
  translate_spec [(txt "in", QStr (txt "stock"))]
  = QObj [(txt "in", QStr (txt "stock"))].
Proof.
  split; [vm_compute; reflexivity|]. split; [vm_compute; reflexivity|].
  split; [vm_compute; discriminate|].
  split; vm_compute; reflexivity.
Qed.

(** C3, amended: for every query the filter is the query without the
    control keys in which every token (run of word characters) that is one
    of gt, gte, lt, lte, in has got a dollar sign, be it a nested key, a
    field name or part of a value; a nested operator key stays under its
    outer key; nothing but dollar signs is added, so that removing them
    gives the strings of the query back; parsing the rewritten text never
    fails. *)
Theorem find_filter_marks_operators (query : list (text * qval)) :
  find_filter query = Some (mark_value (QObj (reqQuery query)))
  /\ (forall tok, forallb is_word tok = true ->
        mark tok = if is_operator tok then "$" :: tok else tok)
  /\ (forall field op v, is_operator op = true ->
        mark_value (QObj [(field, QObj [(op, v)])])
        = QObj [(mark field, QObj [("$" :: op, mark_value v)])])
  /\ (forall s, strip (mark s) = s).
Proof.
  split; [apply find_filter_mark_value|].
  split; [apply mark_token|].
  split; [|apply strip_mark].
  intros field op v Hop. cbn [mark_value List.map]. do 5 f_equal.
  rewrite mark_token, Hop; [reflexivity|].
  apply bool_decide_eq_true in Hop. revert Hop. unfold operators.
  rewrite !elem_of_cons, elem_of_nil.
  intros [-> | [-> | [-> | [-> | [-> | []]]]]]; reflexivity.
Qed.

Lemma find_filter_marks_operators_witness :
  find_filter cost_lte
  = Some (QObj [(txt "averageCost", QObj [(txt "$lte", QStr (txt "10000"))])])
  /\ mark (txt "gte") = txt "$gte" /\ mark (txt "integer") = txt "integer".
Proof.
  destruct (find_filter_marks_operators cost_lte) as (Hf & Ht & _ & _).
  split; [rewrite Hf; vm_compute; reflexivity|].
  split; [rewrite (Ht (txt "gte")) | rewrite (Ht (txt "integer"))]; reflexivity.
Defined.

(** ** The list endpoint: page and limit *)

Lemma nearest_double_not_negative z : 0 <= z -> not_negative (nearest_double z) = true.
Proof.
  intros Hz. unfold nearest_double.
  destruct (Z.ltb_spec (Z.abs z) (2 ^ 53)) as [_ | Hbig]; [apply Z.leb_le, Hz|].
  assert (Hpos : 0 < z) by lia.
  cbv zeta.
  match goal with |- context [Z.shiftl ?q ?e] => set (m := Z.shiftl q e); assert (Hm : 0 <= m) end.
  { apply Z.shiftl_nonneg.
    assert (0 <= Z.shiftr (Z.abs z) (Z.log2 (Z.abs z) - 52))
      by (apply Z.shiftr_nonneg; lia).
    case_match; lia. }
  destruct (Z.leb_spec (2 ^ 1024) m).
  - cbn. destruct (Z.ltb_spec z 0); [lia | reflexivity].
  - cbn [not_negative]. apply Z.leb_le. rewrite (Z.sgn_pos z Hpos). lia.
Qed.

Lemma or_default_not_negative n d :
  0 < d -> not_negative (or_default n d) = true ->
  (exists z, or_default n d = Num z /\ 1 <= z) \/ or_default n d = Infinity false.
Proof.
  intros Hd. destruct n as [|v|[|]]; cbn.
  - intros _. left. exists d. split; [reflexivity | lia].
  - destruct (Z.eqb_spec v 0) as [-> | Hv]; cbn.
    + intros _. left. exists d. split; [reflexivity | lia].
    + intros H%Z.leb_le. left. exists v. split; [reflexivity | lia].
  - discriminate.
  - intros _. right. reflexivity.
Qed.

(** The start index of a page from 1 on with a finite limit from 1 on. *)
Lemma startIndexN_not_negative query p l :
  page_number query = Some p -> limit_number query = Some l ->
  not_negative p = true -> not_negative l = true -> l <> Infinity false ->
  not_negative (startIndexN p l) = true.
Proof.
  unfold page_number, limit_number.
  destruct (parsed "page" query) as [n|]; [|discriminate].
  destruct (parsed "limit" query) as [n'|]; [|discriminate].
  cbn [fmap option_fmap option_map]. intros [= <-] [= <-] Hp Hl Hfinite.
  destruct (or_default_not_negative n' 25 ltac:(lia) Hl) as [(y & Ey & Hy) | E];
    [|contradiction].
  rewrite Ey. unfold startIndexN, nsub.
  destruct (or_default_not_negative n 1 ltac:(lia) Hp) as [(x & -> & Hx) | ->].
  - cbn [nopp nadd].
    match goal with
    | |- context [nearest_double ?a] =>
        pose proof (nearest_double_not_negative a ltac:(lia)) as Hd;
        destruct (nearest_double a) as [|x'|[|]]; try discriminate Hd
    end.
    + cbn [nmul]. apply nearest_double_not_negative.
      apply Z.leb_le in Hd. nia.
    + cbn [nmul]. destruct (Z.eqb_spec y 0); [lia|].
      destruct (Z.ltb_spec y 0); [lia | reflexivity].
  - cbn [nopp nadd nmul]. destruct (Z.eqb_spec y 0); [lia|].
    destruct (Z.ltb_spec y 0); [lia | reflexivity].
Qed.

Lemma exact_numbers_Some p l p' l' :
  exact_numbers p l = Some (p', l') ->
  p = Num p' /\ l = Num l' /\ exact_paging p' l' = true.
Proof.
  unfold exact_numbers. destruct p as [|p|]; try discriminate.
  destruct l as [|l|]; try discriminate.
  destruct (exact_paging p l) eqn:E; [|discriminate].
  intros [= <- <-]. auto.
Qed.

Lemma is_double_nearest z : is_double z = true -> nearest_double z = Num z.
Proof.
  unfold is_double. destruct (nearest_double z) as [|z'|]; try discriminate.
  intros ->%Z.eqb_eq. reflexivity.
Qed.

(** Where no operation rounds, the doubles of the code compute what the
    integers do. *)
Lemma exact_paging_startIndex p l :
  exact_paging p l = true ->
  startIndexN (Num p) (Num l) = Num (startIndex p l)
  /\ endIndexN (Num p) (Num l) = Num (endIndex p l)
  /\ nadd (Num p) (Num 1) = Num (p + 1) /\ nsub (Num p) (Num 1) = Num (p - 1).
Proof.
  unfold exact_paging. rewrite !andb_true_iff.
  intros [[[H1 H2] H3] H4].
  apply is_double_nearest in H1, H2, H3, H4.
  unfold startIndexN, endIndexN, startIndex, endIndex, nsub.
  change (nadd (Num p) (nopp (Num 1))) with (nearest_double (p - 1)).
  change (nadd (Num p) (Num 1)) with (nearest_double (p + 1)).
  rewrite H1, H2. cbn [nmul]. rewrite H3, H4. auto.
Qed.

Section Paging.

Variable exec : Query -> Collection -> list Doc.
Variable matches : qval -> Doc -> bool.

(** Every run of [getBootcamps]. *)
Lemma getBootcamps_run (query : list (text * qval)) (w : World) :
  handle (getBootcamps exec matches query) w
  = (if not_a_string (member (txt "select") query)
        || not_a_string (member (txt "sort") query)
     then Throw "TypeError"
     else match page_number query, limit_number query with
          | Some p, Some l =>
              match exact_numbers p l with
              | Some (p', l') => exact_answer exec query p' l' w
              | None => rounded_answer exec query p l w
              end
          | _, _ => Throw "TypeError"
          end, w).
Proof.
  unfold handle, getBootcamps, rounded_page, to_number, split_join, gets, stop,
    mbind, handler_bind, mret, handler_ret, exact_numbers, exact_answer, rounded_answer,
    list_query.
  rewrite find_filter_mark_value.
  destruct (member (txt "select") query) as [[[|c s] | ls | ms]|];
    destruct (member (txt "sort") query) as [[[|c' s'] | ls' | ms']|];
    cbn [not_a_string orb truthy selected sorted_by]; try reflexivity;
    destruct (page_number query) as [[|p|sp]|]; try reflexivity;
    destruct (limit_number query) as [[|l|sl]|]; try reflexivity;
    destruct (exact_paging p l); reflexivity.
Qed.

Lemma getBootcamps_paged (query : list (text * qval)) (w : World) (p l : number) :
  not_a_string (member (txt "select") query)
  || not_a_string (member (txt "sort") query) = false ->
  page_number query = Some p -> limit_number query = Some l ->
  handle (getBootcamps exec matches query) w
  = (match exact_numbers p l with
     | Some (p', l') => exact_answer exec query p' l' w
     | None => rounded_answer exec query p l w
     end, w).
Proof. intros Hs Hp Hl. rewrite getBootcamps_run, Hs, Hp, Hl. reflexivity. Qed.

Lemma getBootcamps_throws (query : list (text * qval)) (w : World) :
  fst (handle (getBootcamps exec matches query) w) = Throw "TypeError"
  <-> not_a_string (member (txt "select") query) = true
      \/ not_a_string (member (txt "sort") query) = true
      \/ parsed "page" query = None \/ parsed "limit" query = None.
Proof.
  rewrite getBootcamps_run. cbn [fst]. unfold page_number, limit_number.
  destruct (not_a_string (member (txt "select") query));
    destruct (not_a_string (member (txt "sort") query)); cbn [orb]; try tauto.
  destruct (parsed "page" query) as [p|]; cbn [fmap option_fmap option_map]; [|tauto].
  destruct (parsed "limit" query) as [l|]; cbn [fmap option_fmap option_map]; [|tauto].
  unfold exact_answer, rounded_answer.
  split.
  - destruct (exact_numbers _ _) as [[p' l']|]; discriminate.
  - intros [H | [H | [H | H]]]; discriminate H.
Qed.


End Paging.



(** ** The list endpoint: the total *)

Section List.

Variable exec : Query -> Collection -> list Doc.
Variable matches : qval -> Doc -> bool.

(** C1: whenever [getBootcamps] answers with a list, the pagination of the
    answer is computed from the size of the whole collection,
    [countDocuments()], whatever the filter of the request. *)
Theorem getBootcamps_total_unfiltered (query : list (text * qval)) (w w' : World)
    (n : nat) (pag : Pagination) (data : list Doc)
    (Hlist : handle (getBootcamps exec matches query) w = (Json 200 (ListBody n pag data), w')) :
  pag = pagination (page query) (limit query) (Z.of_nat (base.size (Bootcamps w)))
  /\ w' = w.
Proof.
  rewrite getBootcamps_run in Hlist.
  destruct (_ || _); [discriminate Hlist|].
  destruct (page_number query) as [p|] eqn:Hp; [|discriminate Hlist].
  destruct (limit_number query) as [l|] eqn:Hl; [|discriminate Hlist].
  destruct (exact_numbers p l) as [[p' l']|] eqn:He; [|discriminate Hlist].
  apply exact_numbers_Some in He as (-> & -> & _).
  rewrite (page_number_page query p' Hp), (limit_number_limit query l' Hl).
  unfold exact_answer in Hlist. injection Hlist as _ <- _ <-. auto.
Qed.

(** The same for a page number or a limit that rounds or is infinite. *)
Lemma rounded_total (query : list (text * qval)) (w w' : World)
    (n : nat) (pag : PaginationN) (data : list Doc) :
  handle (getBootcamps exec matches query) w = (Json 200 (ListBodyN n pag data), w') ->
  exists p l, page_number query = Some p /\ limit_number query = Some l
              /\ pag = paginationN p l (Num (Z.of_nat (base.size (Bootcamps w))))
              /\ w' = w.
Proof.
  rewrite getBootcamps_run.
  destruct (_ || _); [discriminate|].
  destruct (page_number query) as [p|]; [|discriminate].
  destruct (limit_number query) as [l|]; [|discriminate].
  destruct (exact_numbers p l) as [[p' l']|]; [discriminate|].
  unfold rounded_answer. intros [= _ <- _ <-]. exists p, l. auto.
Qed.

End List.

Lemma getBootcamps_total_unfiltered_witness :
  {| next := Some {| pr_page := 2; pr_limit := 1 |}; prev := None |}
  = pagination (page by_name) (limit by_name) (Z.of_nat (base.size (Bootcamps two_bootcamps)))
  /\ two_bootcamps = two_bootcamps.
Proof.
  apply (getBootcamps_total_unfiltered sample_exec sample_matches by_name
           two_bootcamps two_bootcamps 1
           {| next := Some {| pr_page := 2; pr_limit := 1 |}; prev := None |}
           [({[ "name"%string := "Devworks"%string ]} : Doc)]).
  vm_compute. reflexivity.
Defined.

(** The request [?name=Devworks&limit=1] on two bootcamps of which one is
    called Devworks: the filter matches one document, the answer holds it
    and announces a second page, which the count of the matching
    documents would not. *)
Example getBootcamps_next_page_of_nothing :
  find_filter by_name = Some (QObj [(txt "name", QStr (txt "Devworks"))]) /\
  fst (handle (getBootcamps sample_exec sample_matches by_name) two_bootcamps)
  = Json 200 (ListBody 1 {| next := Some {| pr_page := 2; pr_limit := 1 |}; prev := None |}
                [({[ "name"%string := "Devworks"%string ]} : Doc)]) /\
  countDocuments sample_matches (find_filter by_name) (Bootcamps two_bootcamps) = 1 /\
  pagination (page by_name) (limit by_name)
    (countDocuments sample_matches (find_filter by_name) (Bootcamps two_bootcamps))
  = {| next := None; prev := None |}.
Proof. repeat split; vm_compute; reflexivity. Qed.


(** * More properties of the controllers *)

(** ** The list endpoint: filter, select, sort *)

Lemma member_delete_member key k (m : list (text * qval)) :
  member k (delete_member key m) = if text_eqb key k then None else member k m.
Proof.
  unfold delete_member, text_eqb.
  induction m as [|[k' v] m IH]; [cbn; case_bool_decide; reflexivity|].
  cbn [List.filter fst member]. unfold text_eqb.
  destruct (bool_decide (k' = key)) eqn:Ek; cbn [negb].
  - rewrite IH. apply bool_decide_eq_true in Ek. subst k'.
    destruct (bool_decide (key = k)); reflexivity.
  - cbn [member]. unfold text_eqb. rewrite IH.
    apply bool_decide_eq_false in Ek.
    destruct (bool_decide (k' = k)) eqn:Ek'; [|reflexivity].
    apply bool_decide_eq_true in Ek'. subst k'.
    rewrite bool_decide_eq_false_2 by congruence. reflexivity.
Qed.

(** X2: of the members of the query, the filter is built from those not
    named select, sort, page or limit, and from all of those, each with
    the value it has in the query. *)
Theorem reqQuery_member (query : list (text * qval)) (k : text) :
  member k (reqQuery query)
  = if bool_decide (k ∈ removeFields) then None else member k query.
Proof.
  destruct (decide (k ∈ removeFields)) as [Hin | Hin].
  - rewrite (bool_decide_eq_true_2 _ Hin).
    unfold reqQuery, removeFields in *. cbn [fold_left].
    rewrite !member_delete_member. unfold text_eqb.
    rewrite !elem_of_cons, elem_of_nil in Hin.
    destruct Hin as [-> | [-> | [-> | [-> | []]]]]; reflexivity.
  - rewrite (bool_decide_eq_false_2 _ Hin).
    unfold reqQuery, removeFields in *. cbn [fold_left].
    rewrite !member_delete_member. unfold text_eqb.
    rewrite !bool_decide_eq_false_2; [reflexivity | ..];
      intros <-; apply Hin; apply list_elem_of_In; cbn; tauto.
Qed.

Lemma reqQuery_control_only (query : list (text * qval)) :
  (forall k, k ∈ keys query -> k ∈ removeFields) -> reqQuery query = [].
Proof.
  unfold reqQuery, removeFields, keys. cbn [fold_left]. unfold delete_member.
  induction query as [|[k v] query IH]; [reflexivity|]. intros H.
  assert (Hk : k ∈ removeFields) by (apply H; cbn; left).
  assert (IH' := IH (fun k' Hin => H k' ltac:(cbn; right; exact Hin))).
  clear IH H. unfold removeFields in Hk.
  rewrite !elem_of_cons, elem_of_nil in Hk.
  destruct Hk as [-> | [-> | [-> | [-> | []]]]]; cbn; exact IH'.
Qed.

(** X3: a query that holds only control parameters gives the empty
    filter, the one that every bootcamp matches. *)
Theorem find_filter_control_only (query : list (text * qval))
    (Hcontrol : forall k, k ∈ keys query -> k ∈ removeFields) :
  find_filter query = Some (QObj []).
Proof.
  rewrite find_filter_mark_value, (reqQuery_control_only query Hcontrol). reflexivity.
Qed.

Lemma find_filter_control_only_witness : find_filter only_control = Some (QObj []).
Proof.
  apply (find_filter_control_only only_control).
  intros k Hin. unfold only_control, keys in Hin. cbn in Hin. exact Hin.
Defined.

(** X4: what [JSON.stringify] writes for a query, [JSON.parse] reads back
    as the same query. *)
Theorem stringify_then_parse (v : qval) : JSON_parse (stringify v) = Some v.
Proof. exact (JSON_parse_stringify v). Qed.

Section ListMore.

Variable exec : Query -> Collection -> list Doc.
Variable matches : qval -> Doc -> bool.

Lemma parsed_None key query :
  parsed key query = None
  <-> exists v, member (txt key) query = Some v /\ toString v = None.
Proof.
  unfold parsed, toString_opt.
  destruct (member (txt key) query) as [v|]; cbn.
  - destruct (toString v) eqn:E; cbn; split.
    + discriminate.
    + intros (v' & [= <-] & H). congruence.
    + intros _. eauto.
    + reflexivity.
  - split; [discriminate | intros (v & H & _); discriminate H].
Qed.

(** X5: [getBootcamps] ends in a [TypeError] exactly when the select or
    the sort parameter is an array or an object, as for
    [?select[]=name&select[]=description], or the page or the limit
    parameter is there and its conversion to a string throws, as for
    [?page[toString]=x]; it answers 200 with a list otherwise. *)
Theorem getBootcamps_TypeError (query : list (text * qval)) (w : World) :
  (fst (handle (getBootcamps exec matches query) w) = Throw "TypeError"
   <-> not_a_string (member (txt "select") query) = true
       \/ not_a_string (member (txt "sort") query) = true
       \/ (exists v, member (txt "page") query = Some v /\ toString v = None)
       \/ (exists v, member (txt "limit") query = Some v /\ toString v = None))
  /\ (fst (handle (getBootcamps exec matches query) w) = Throw "TypeError"
      \/ (exists count pag data,
            fst (handle (getBootcamps exec matches query) w)
            = Json 200 (ListBody count pag data))
      \/ (exists count pag data,
            fst (handle (getBootcamps exec matches query) w)
            = Json 200 (ListBodyN count pag data))).
Proof.
  split.
  - rewrite getBootcamps_throws, !parsed_None. reflexivity.
  - rewrite getBootcamps_run. cbn [fst].
    destruct (_ || _); [auto|].
    destruct (page_number query) as [p|]; [|auto].
    destruct (limit_number query) as [l|]; [|auto].
    right. unfold exact_answer, rounded_answer.
    destruct (exact_numbers p l) as [[p' l']|]; eauto.
Qed.

Lemma small_exact_paging p l :
  Z.abs p < 2 ^ 26 -> Z.abs l < 2 ^ 26 -> exact_paging p l = true.
Proof.
  intros Hp Hl. unfold exact_paging.
  assert (H26 : 2 ^ 26 * 2 ^ 26 < 2 ^ 53) by reflexivity.
  assert (H1 : Z.abs (p - 1) <= 2 ^ 26) by lia.
  assert (H2 : Z.abs ((p - 1) * l) <= 2 ^ 26 * 2 ^ 26).
  { rewrite Z.abs_mul. apply Z.mul_le_mono_nonneg; lia. }
  assert (H3 : Z.abs (p * l) <= 2 ^ 26 * 2 ^ 26).
  { rewrite Z.abs_mul. apply Z.mul_le_mono_nonneg; lia. }
  rewrite !is_double_small; [reflexivity | lia..].
Qed.

(** X6: with select and sort parameters that are strings or absent, and a
    page number and a limit (the parsed ones or their defaults) on which
    no operation rounds, as it is for all below 2^26, [getBootcamps]
    answers 200 with the documents of one query: the filter is the marked
    query without control keys, [courses] is populated, the fields
    selected and the sort keys are the parameters with spaces for commas,
    the sort is [-createdAt] without a sort parameter,
    [(page - 1) * limit] documents are skipped and [limit] taken; [count]
    is the number of documents in the answer, and the store is not
    changed.  With other numbers the answer is the same computation on
    doubles. *)
Theorem getBootcamps_answer (query : list (text * qval)) (w : World)
    (Hstrings : not_a_string (member (txt "select") query)
                || not_a_string (member (txt "sort") query) = false) :
  (forall p l,
     page_number query = Some (Num p) -> limit_number query = Some (Num l) ->
     exact_paging p l = true ->
     let data :=
       exec {| q_filter := mark_value (QObj (reqQuery query));
               q_populate := "courses";
               q_select := selected (member (txt "select") query);
               q_sort := sorted_by (member (txt "sort") query);
               q_skip := Num ((p - 1) * l);
               q_limit := Num l |} (Bootcamps w) in
     handle (getBootcamps exec matches query) w
     = (Json 200 (ListBody (length data)
                    (pagination p l (Z.of_nat (base.size (Bootcamps w)))) data), w))
  /\ (forall p l,
        page_number query = Some p -> limit_number query = Some l ->
        exact_numbers p l = None ->
        let data :=
          exec {| q_filter := mark_value (QObj (reqQuery query));
                  q_populate := "courses";
                  q_select := selected (member (txt "select") query);
                  q_sort := sorted_by (member (txt "sort") query);
                  q_skip := nmul (nsub p (Num 1)) l;
                  q_limit := l |} (Bootcamps w) in
        handle (getBootcamps exec matches query) w
        = (Json 200 (ListBodyN (length data)
                       (paginationN p l (Num (Z.of_nat (base.size (Bootcamps w))))) data), w))
  /\ (forall p l, Z.abs p < 2 ^ 26 -> Z.abs l < 2 ^ 26 -> exact_paging p l = true).
Proof.
  split; [|split].
  - intros p l Hp Hl He.
    rewrite (getBootcamps_paged exec matches query w _ _ Hstrings Hp Hl).
    unfold exact_numbers. rewrite He. reflexivity.
  - intros p l Hp Hl He.
    rewrite (getBootcamps_paged exec matches query w _ _ Hstrings Hp Hl), He.
    reflexivity.
  - exact small_exact_paging.
Qed.

End ListMore.

Lemma getBootcamps_TypeError_witness :
  fst (handle (getBootcamps sample_exec sample_matches select_array) two_bootcamps)
  = Throw "TypeError"
  /\ fst (handle (getBootcamps sample_exec sample_matches page_object) two_bootcamps)
     = Throw "TypeError".
Proof.
  split.
  - apply (getBootcamps_TypeError sample_exec sample_matches select_array two_bootcamps).
    left. reflexivity.
  - apply (getBootcamps_TypeError sample_exec sample_matches page_object two_bootcamps).
    right. right. left. eexists. split; reflexivity.
Defined.

Lemma getBootcamps_answer_witness :
  handle (getBootcamps sample_exec sample_matches only_control) two_bootcamps
  = (Json 200 (ListBody 0
                 {| next := None; prev := Some {| pr_page := 1; pr_limit := 10 |} |} []),
     two_bootcamps).
Proof.
  destruct (getBootcamps_answer sample_exec sample_matches only_control two_bootcamps eq_refl)
    as (Hexact & _ & Hsmall).
  rewrite (Hexact 2 10 eq_refl eq_refl (Hsmall 2 10 eq_refl eq_refl)).
  vm_compute. reflexivity.
Defined.


(** ** [split] and [join], [parseInt], page links *)

Lemma split_not_nil sep s : split sep s <> [].
Proof.
  destruct s as [|c s]; cbn; [discriminate|].
  destruct (Ascii.eqb c sep); [discriminate|].
  destruct (split sep s); discriminate.
Qed.

Lemma join_push sep c piece pieces :
  join sep ((c :: piece) :: pieces) = c :: join sep (piece :: pieces).
Proof. destruct pieces; reflexivity. Qed.

Lemma join_split_with sep sep' s :
  join [sep'] (split sep s) = List.map (fun c => if Ascii.eqb c sep then sep' else c) s.
Proof.
  induction s as [|c s IH]; [reflexivity|].
  cbn [split List.map]. destruct (Ascii.eqb c sep).
  - destruct (split sep s) as [|piece pieces] eqn:E; [destruct (split_not_nil sep s E)|].
    rewrite <- IH. reflexivity.
  - destruct (split sep s) as [|piece pieces] eqn:E; [destruct (split_not_nil sep s E)|].
    rewrite join_push, IH. reflexivity.
Qed.

(** X7: [s.split(',').join(' ')], the argument that [getBootcamps] hands
    to [select] and [sort], is [s] with a space for every comma, whatever
    [s] is (empty pieces included); joining with the comma again gives
    [s] back. *)
Theorem split_join_commas (s : text) (w : World) :
  split_join (Some (QStr s)) w = (Go (join [" "] (split "," s)), w)
  /\ join [" "] (split "," s) = commas_to_spaces s
  /\ length (join [" "] (split "," s)) = length s
  /\ ~ In "," (join [" "] (split "," s))
  /\ join [","] (split "," s) = s.
Proof.
  rewrite (join_split_with "," " " s), (join_split_with "," "," s).
  split; [reflexivity|]. split; [reflexivity|].
  split; [apply length_map|]. split.
  - intros Hin. apply in_map_iff in Hin as (c & Hc & _).
    destruct (Ascii.eqb_spec c ","); [discriminate | contradiction].
  - rewrite <- (List.map_id s) at 2. apply List.map_ext.
    intros c. destruct (Ascii.eqb_spec c ","); congruence.
Qed.

(** X8: the page and the limit that [getBootcamps] uses are never 0,
    whatever the query holds. *)
Theorem page_limit_not_zero (query : list (text * qval)) :
  page query <> 0 /\ limit query <> 0.
Proof.
  unfold page, limit.
  pose proof (page_number_not_zero query) as Hp.
  pose proof (limit_number_not_zero query) as Hl.
  destruct (page_number query) as [[|p|sp]|], (limit_number query) as [[|l|sl]|];
    split; congruence.
Qed.

Lemma digit_not_space_or_sign c t :
  is_digit c = true ->
  parseInt (c :: t) = from_option nearest_double NaN (digits None (c :: t)).
Proof. each_char c; intros H; try discriminate H; reflexivity. Qed.

Lemma digit_value_range c : is_digit c = true -> 0 <= digit_value c <= 9.
Proof. each_char c; intros H; try discriminate H; vm_compute; split; discriminate. Qed.

Lemma digits_run ds : forall acc rest,
  forallb is_digit ds = true ->
  from_option is_digit false (head rest) = false ->
  digits (Some acc) (ds ++ rest)
  = Some (fold_left (fun a c => 10 * a + digit_value c) ds acc).
Proof.
  induction ds as [|d ds IH]; intros acc rest Hds Hrest.
  - destruct rest as [|c rest]; [reflexivity|].
    cbn in Hrest |- *. rewrite Hrest. reflexivity.
  - cbn in Hds. apply andb_prop in Hds as [Hd Hds].
    cbn [app digits fold_left]. rewrite Hd. cbn [default from_option id].
    apply IH; assumption.
Qed.

Lemma decimal_nonneg ds : forall acc,
  forallb is_digit ds = true -> 0 <= acc ->
  0 <= fold_left (fun a c => 10 * a + digit_value c) ds acc.
Proof.
  induction ds as [|d ds IH]; intros acc Hds Hacc; [exact Hacc|].
  cbn in Hds. apply andb_prop in Hds as [Hd Hds].
  cbn [fold_left]. apply IH; [exact Hds|].
  pose proof (digit_value_range d Hd). lia.
Qed.

Lemma parseInt_digit_run (d : ascii) (ds rest : text) :
  forallb is_digit (d :: ds) = true ->
  from_option is_digit false (head rest) = false ->
  parseInt ((d :: ds) ++ rest) = nearest_double (decimal (d :: ds))
  /\ parseInt ("-" :: (d :: ds) ++ rest) = nearest_double (- decimal (d :: ds))
  /\ 0 <= decimal (d :: ds).
Proof.
  intros Hdigits Hrest.
  assert (Hrun : digits None ((d :: ds) ++ rest) = Some (decimal (d :: ds))).
  { pose proof Hdigits as H. cbn in H. apply andb_prop in H as [Hd Hds].
    cbn [app digits]. rewrite Hd. cbn [default from_option id].
    unfold decimal. cbn [fold_left]. apply digits_run; assumption. }
  split; [|split].
  - cbn [app]. cbn in Hdigits. apply andb_prop in Hdigits as [Hd _].
    rewrite (digit_not_space_or_sign d _ Hd).
    change (d :: ds ++ rest) with ((d :: ds) ++ rest). rewrite Hrun. reflexivity.
  - change (parseInt ("-" :: (d :: ds) ++ rest))
      with (from_option (fun n => nearest_double (- n)) NaN
              (digits None ((d :: ds) ++ rest))).
    rewrite Hrun. reflexivity.
  - apply decimal_nonneg; [exact Hdigits | lia].
Qed.

(** X9: [parseInt] reads the digits a string starts with and ignores what
    follows them: a page parameter [2abc] is page 2.  The result is the
    double nearest to the number the digits write, and with a minus sign
    before them the double nearest to the negated number: the number
    itself when it is below 2^53, and [9007199254740992] for the digits
    of 2^53 + 1. *)
Theorem parseInt_leading_digits (d : ascii) (ds rest : text)
    (Hdigits : forallb is_digit (d :: ds) = true)
    (Hrest : from_option is_digit false (head rest) = false) :
  parseInt ((d :: ds) ++ rest) = nearest_double (decimal (d :: ds))
  /\ parseInt ("-" :: (d :: ds) ++ rest) = nearest_double (- decimal (d :: ds))
  /\ (decimal (d :: ds) < 2 ^ 53 ->
      parseInt ((d :: ds) ++ rest) = Num (decimal (d :: ds))
      /\ parseInt ("-" :: (d :: ds) ++ rest) = Num (- decimal (d :: ds)))
  /\ nearest_double (2 ^ 53 + 1) = Num (2 ^ 53).
Proof.
  destruct (parseInt_digit_run d ds rest Hdigits Hrest) as (H1 & H2 & Hpos).
  split; [exact H1|]. split; [exact H2|]. split; [|reflexivity].
  intros Hsmall. rewrite H1, H2.
  split; apply nearest_double_small; lia.
Qed.

Lemma parseInt_leading_digits_witness :
  parseInt (txt "2abc") = Num 2 /\ parseInt (txt "-2abc") = Num (-2).
Proof.
  destruct (parseInt_leading_digits "2" [] (txt "abc") eq_refl eq_refl)
    as (_ & _ & Hsmall & _).
  apply Hsmall. reflexivity.
Defined.

Lemma mapM_toString_cons v l :
  mapM toString (v :: l) = s ← toString v; k ← mapM toString l; mret (s :: k).
Proof. reflexivity. Qed.

Lemma toString_QArr l : toString (QArr l) = join [","] <$> mapM toString l.
Proof. reflexivity. Qed.

(** X10: a page or limit parameter given more than once counts with its
    first value, when that starts with digits and the other values can be
    converted to strings: [?page=3&page=7] is page 3.  A parameter given
    as an object, as in [?page[a]=3], is not a number, unless the object
    has a member [toString]: then, as for an array that holds such an
    object, the conversion throws. *)
Theorem page_repeated (key : string) (query : list (text * qval))
    (d : ascii) (ds : text) (v : qval) (l : list qval) (others : list text)
    (Hdigits : forallb is_digit (d :: ds) = true)
    (Hrepeated : member (txt key) query = Some (QArr (QStr (d :: ds) :: v :: l)))
    (Hothers : mapM toString (v :: l) = Some others) :
  parsed key query = Some (nearest_double (decimal (d :: ds)))
  /\ (decimal (d :: ds) < 2 ^ 53 -> parsed key query = Some (Num (decimal (d :: ds))))
  /\ (forall (q : list (text * qval)) m,
        member (txt key) q = Some (QObj m) ->
        parsed key q = match member (txt "toString") m with
                       | Some _ => None
                       | None => Some NaN
                       end)
  /\ (forall (q : list (text * qval)) vs,
        member (txt key) q = Some (QArr vs) -> mapM toString vs = None ->
        parsed key q = None).
Proof.
  destruct others as [|s others].
  { rewrite mapM_toString_cons in Hothers.
    destruct (toString v); [|discriminate Hothers].
    destruct (mapM toString l); discriminate Hothers. }
  assert (Hp : parsed key query = Some (nearest_double (decimal (d :: ds)))).
  { unfold parsed. rewrite Hrepeated. unfold toString_opt.
    rewrite toString_QArr, mapM_toString_cons, Hothers.
    change (parseInt <$> (join [","] <$> (s' ← toString (QStr (d :: ds)); k ← Some (s :: others); mret (s' :: k))))
      with (Some (parseInt ((d :: ds) ++ "," :: join [","] (s :: others)))).
    f_equal. apply (parseInt_digit_run d ds _ Hdigits). reflexivity. }
  split; [exact Hp|]. split; [|split].
  - intros Hsmall. rewrite Hp. f_equal. apply nearest_double_small.
    pose proof (decimal_nonneg (d :: ds) 0 Hdigits ltac:(lia)) as Hpos.
    fold (decimal (d :: ds)) in Hpos. lia.
  - intros q m Hm. unfold parsed. rewrite Hm. unfold toString_opt.
    change (toString (QObj m))
      with (match member (txt "toString") m with
            | Some _ => None
            | None => Some (txt "[object Object]")
            end).
    destruct (member (txt "toString") m); reflexivity.
  - intros q vs Hm Hvs. unfold parsed. rewrite Hm. unfold toString_opt.
    rewrite toString_QArr, Hvs. reflexivity.
Qed.

Lemma page_repeated_witness :
  let query := [(txt "page", QArr [QStr (txt "3"); QStr (txt "7")])] in
  parsed "page" query = Some (Num 3).
Proof.
  cbv zeta.
  destruct (page_repeated "page" [(txt "page", QArr [QStr (txt "3"); QStr (txt "7")])]
              "3" [] (QStr (txt "7")) [] [txt "7"] eq_refl eq_refl eq_refl)
    as (_ & Hp & _).
  apply Hp. reflexivity.
Defined.




(** ** Delete, upload and login: the other paths *)

(** X12: deleting a stored bootcamp touches nothing else: every other
    bootcamp is as before, the courses of other bootcamps are as before
    and no course appears, users and uploaded files (the photo of the
    bootcamp too) stay, and the collection has one bootcamp less. *)
Theorem deleteBootcamp_frame (id : string) (w : World) (d : Doc)
    (Hstored : Bootcamps w !! id = Some d) :
  let w' := snd (handle (deleteBootcamp id) w) in
  (forall id', id' <> id -> Bootcamps w' !! id' = Bootcamps w !! id')
  /\ (forall k c, Courses w !! k = Some c -> c !! "bootcamp"%string <> Some id ->
        Courses w' !! k = Some c)
  /\ (forall k c, Courses w' !! k = Some c -> Courses w !! k = Some c)
  /\ Users w' = Users w /\ uploads w' = uploads w
  /\ S (base.size (Bootcamps w')) = base.size (Bootcamps w).
Proof.
  rewrite (deleteBootcamp_found id w d Hstored). cbn.
  unfold deleteOne, deleteMany. repeat split.
  - intros id' Hne. apply lookup_delete_ne. congruence.
  - intros k c Hk Hc. apply map_lookup_filter_Some. split; [exact Hk | exact Hc].
  - intros k c Hk. apply map_lookup_filter_Some in Hk as [Hk _]. exact Hk.
  - rewrite map_size_delete, Hstored.
    assert (base.size (Bootcamps w) <> 0%nat).
    { intros H0. apply map_size_empty_iff in H0. rewrite H0, lookup_empty in Hstored.
      discriminate. }
    lia.
Qed.

Lemma deleteBootcamp_frame_witness :
  let w' := snd (handle (deleteBootcamp bootcamp_id) one_bootcamp) in
  (forall id', id' <> bootcamp_id -> Bootcamps w' !! id' = Bootcamps one_bootcamp !! id')
  /\ (forall k c, Courses one_bootcamp !! k = Some c ->
        c !! "bootcamp"%string <> Some bootcamp_id -> Courses w' !! k = Some c)
  /\ (forall k c, Courses w' !! k = Some c -> Courses one_bootcamp !! k = Some c)
  /\ Users w' = Users one_bootcamp /\ uploads w' = uploads one_bootcamp
  /\ S (base.size (Bootcamps w')) = base.size (Bootcamps one_bootcamp).
Proof.
  apply (deleteBootcamp_frame bootcamp_id one_bootcamp
           ({[ "name"%string := "Devworks"%string ]} : Doc)).
  reflexivity.
Defined.

Lemma delete_missing_bootcamp (id : string) (w : World) :
  Bootcamps w !! id = None ->
  handle (deleteBootcamp id) w = (Next (not_found id), w).
Proof.
  intros H. unfold handle, deleteBootcamp, findById, gets, mbind, handler_bind.
  rewrite H. reflexivity.
Qed.

(** X13: a second delete of the same bootcamp is answered with the 404 and
    changes nothing. *)
Theorem deleteBootcamp_twice (id : string) (w : World) (d : Doc)
    (Hstored : Bootcamps w !! id = Some d) :
  let w' := snd (handle (deleteBootcamp id) w) in
  handle (deleteBootcamp id) w'
  = (Next {| message := "Bootcamp not found with id of " +:+ id;
             statusCode := Some 404 |}, w').
Proof.
  cbv zeta. apply delete_missing_bootcamp.
  rewrite (deleteBootcamp_found id w d Hstored). cbn. apply lookup_delete_eq.
Qed.

Lemma deleteBootcamp_twice_witness :
  let w' := snd (handle (deleteBootcamp bootcamp_id) one_bootcamp) in
  handle (deleteBootcamp bootcamp_id) w'
  = (Next {| message := "Bootcamp not found with id of " +:+ bootcamp_id;
             statusCode := Some 404 |}, w').
Proof.
  apply (deleteBootcamp_twice bootcamp_id one_bootcamp
           ({[ "name"%string := "Devworks"%string ]} : Doc)).
  reflexivity.
Defined.

Section UploadMore.

Variable path_ext : string -> string.
Variable mv_fails : string -> bool.
Variable env : Env.

(** X14: an image of at most [MAX_FILE_UPLOAD] bytes for a stored bootcamp,
    moved without error, is answered with 200 and the name
    [Photo_<id><ext>]; the file is in the upload directory under that
    name, the bootcamp has the name in its [photo] field and its other
    fields as before, and the other bootcamps, the courses and the users
    are as before. *)
Theorem upload_stored (id : string) (w : World) (d : Doc) (file : UploadedFile)
    (Hstored : Bootcamps w !! id = Some d)
    (Himage : String.prefix "image" (mimetype file) = true)
    (Hsize : size file <= MAX_FILE_UPLOAD env)
    (Hmoved : mv_fails (photo_path path_ext env id file) = false) :
  let '(o, w') := handle (bootcampPhotoUpload path_ext mv_fails env id (Some (Some file))) w in
  o = Json 200 (FileBody (photo_name path_ext id file))
  /\ uploads w' !! photo_path path_ext env id file
     = Some {| name := photo_name path_ext id file; mimetype := mimetype file; size := size file |}
  /\ Bootcamps w' !! id = Some (<["photo"%string := photo_name path_ext id file]> d)
  /\ (forall id', id' <> id -> Bootcamps w' !! id' = Bootcamps w !! id')
  /\ Courses w' = Courses w /\ Users w' = Users w.
Proof.
  unfold photo_path, photo_name in *.
  unfold handle, bootcampPhotoUpload, findById, gets, modify, mbind, handler_bind.
  rewrite Hstored, Himage. cbn [negb].
  assert (Hle : (size file >? MAX_FILE_UPLOAD env) = false).
  { destruct (Z.gtb_spec (size file) (MAX_FILE_UPLOAD env)); [lia | reflexivity]. }
  rewrite Hle, Hmoved. cbn.
  unfold findByIdAndUpdate. rewrite Hstored.
  split; [reflexivity|]. split; [apply lookup_insert_eq|].
  split; [rewrite lookup_insert_eq, <- insert_union_singleton_l; reflexivity|].
  split; [|split; reflexivity].
  intros id' Hne. apply lookup_insert_ne. congruence.
Qed.

(** X15: when the move of the file fails, the answer is the 500
    [ErrorResponse] and neither the upload directory nor the bootcamp
    changes. *)
Theorem upload_move_fails (id : string) (w : World) (d : Doc) (file : UploadedFile)
    (Hstored : Bootcamps w !! id = Some d)
    (Himage : String.prefix "image" (mimetype file) = true)
    (Hsize : size file <= MAX_FILE_UPLOAD env)
    (Hfails : mv_fails (photo_path path_ext env id file) = true) :
  handle (bootcampPhotoUpload path_ext mv_fails env id (Some (Some file))) w
  = (Next {| message := "Problem with file upload"; statusCode := Some 500 |}, w).
Proof.
  unfold photo_path, photo_name in *.
  unfold handle, bootcampPhotoUpload, findById, gets, modify, mbind, handler_bind.
  rewrite Hstored, Himage. cbn [negb].
  assert (Hle : (size file >? MAX_FILE_UPLOAD env) = false).
  { destruct (Z.gtb_spec (size file) (MAX_FILE_UPLOAD env)); [lia | reflexivity]. }
  rewrite Hle, Hfails. reflexivity.
Qed.

(** X16: for a stored bootcamp, a request without files is answered with
    the 400 [ErrorResponse] [Please upload a file], and a request whose
    files have no field [file] ends in a [TypeError]; for an id that
    matches no bootcamp the 404 comes whatever the files are; the world is
    unchanged in each case. *)
Theorem upload_without_file (id : string) (w : World) :
  (forall d, Bootcamps w !! id = Some d ->
     handle (bootcampPhotoUpload path_ext mv_fails env id None) w
     = (Next {| message := "Please upload a file"; statusCode := Some 400 |}, w)
     /\ handle (bootcampPhotoUpload path_ext mv_fails env id (Some None)) w
        = (Throw "TypeError", w))
  /\ (Bootcamps w !! id = None ->
      forall files,
        handle (bootcampPhotoUpload path_ext mv_fails env id files) w
        = (Next {| message := "Bootcamp not found with id of " +:+ id;
                   statusCode := Some 404 |}, w)).
Proof.
  unfold handle, bootcampPhotoUpload, findById, gets, mbind, handler_bind.
  split.
  - intros d ->. split; reflexivity.
  - intros -> files. reflexivity.
Qed.

End UploadMore.

Lemma upload_stored_witness :
  let '(o, w') := handle (bootcampPhotoUpload sample_ext (fun _ => false) sample_env
                            bootcamp_id (Some (Some a_photo))) one_bootcamp in
  o = Json 200 (FileBody (photo_name sample_ext bootcamp_id a_photo))
  /\ uploads w' !! photo_path sample_ext sample_env bootcamp_id a_photo
     = Some {| name := photo_name sample_ext bootcamp_id a_photo;
               mimetype := mimetype a_photo; size := size a_photo |}
  /\ Bootcamps w' !! bootcamp_id
     = Some (<["photo"%string := photo_name sample_ext bootcamp_id a_photo]>
               ({[ "name"%string := "Devworks"%string ]} : Doc))
  /\ (forall id', id' <> bootcamp_id -> Bootcamps w' !! id' = Bootcamps one_bootcamp !! id')
  /\ Courses w' = Courses one_bootcamp /\ Users w' = Users one_bootcamp.
Proof.
  apply (upload_stored sample_ext (fun _ => false) sample_env bootcamp_id one_bootcamp
           ({[ "name"%string := "Devworks"%string ]} : Doc) a_photo).
  - reflexivity.
  - reflexivity.
  - vm_compute. discriminate.
  - reflexivity.
Defined.

Example photo_name_example :
  photo_name sample_ext bootcamp_id a_photo = "Photo_5d713995b721c3bb38c1f5d0.png"%string
  /\ photo_path sample_ext sample_env bootcamp_id a_photo
     = "./public/uploads/Photo_5d713995b721c3bb38c1f5d0.png"%string.
Proof. split; reflexivity. Qed.

Lemma upload_move_fails_witness :
  handle (bootcampPhotoUpload sample_ext (fun _ => true) sample_env bootcamp_id
            (Some (Some a_photo))) one_bootcamp
  = (Next {| message := "Problem with file upload"; statusCode := Some 500 |}, one_bootcamp).
Proof.
  apply (upload_move_fails sample_ext (fun _ => true) sample_env bootcamp_id one_bootcamp
           ({[ "name"%string := "Devworks"%string ]} : Doc) a_photo).
  - reflexivity.
  - reflexivity.
  - vm_compute. discriminate.
  - reflexivity.
Defined.

Lemma upload_without_file_witness :
  handle (bootcampPhotoUpload sample_ext (fun _ => false) sample_env bootcamp_id None)
    one_bootcamp
  = (Next {| message := "Please upload a file"; statusCode := Some 400 |}, one_bootcamp)
  /\ handle (bootcampPhotoUpload sample_ext (fun _ => false) sample_env
               "5d725a1b7b292f5f8ceff788" None) one_bootcamp
     = (Next {| message := "Bootcamp not found with id of 5d725a1b7b292f5f8ceff788";
                statusCode := Some 404 |}, one_bootcamp).
Proof.
  destruct (upload_without_file sample_ext (fun _ => false) sample_env bootcamp_id
              one_bootcamp) as [Hstored _].
  destruct (upload_without_file sample_ext (fun _ => false) sample_env
              "5d725a1b7b292f5f8ceff788" one_bootcamp) as [_ Hmissing].
  split.
  - apply (Hstored ({[ "name"%string := "Devworks"%string ]} : Doc)). reflexivity.
  - apply Hmissing. reflexivity.
Defined.

Section LoginMore.

Variable matchPassword : Doc -> string -> bool.
Variable getSignedJwtToken : Doc -> string.

(** X17: a login request without email or without password, or with an
    empty one, is answered with the 400 [ErrorResponse]
    [Please provide an email and password]. *)
Theorem login_missing_field (email password : option string) (w : World)
    (Hmissing : email = None \/ email = Some EmptyString
                \/ password = None \/ password = Some EmptyString) :
  handle (login matchPassword getSignedJwtToken email password) w
  = (Next {| message := "Please provide an email and password"; statusCode := Some 400 |}, w).
Proof.
  unfold handle, login.
  assert (Hm : missing email || missing password = true).
  { destruct Hmissing as [-> | [-> | [-> | ->]]]; cbn;
      rewrite ?orb_true_r; reflexivity. }
  rewrite Hm. reflexivity.
Qed.

Lemma login_finds_user (email password : string) (w : World) (k : string) (u : Doc) :
  email <> EmptyString -> password <> EmptyString ->
  Users w !! k = Some u -> u !! "email"%string = Some email ->
  (forall k' u', Users w !! k' = Some u' -> u' !! "email"%string = Some email ->
                 matchPassword u' password = true) ->
  exists k' u',
    Users w !! k' = Some u' /\ u' !! "email"%string = Some email
    /\ handle (login matchPassword getSignedJwtToken (Some email) (Some password)) w
       = (Json 200 (TokenBody (getSignedJwtToken u')), w).
Proof.
  intros Hemail Hpassword Hstored Hu Hmatch.
  destruct (findOne_some "email" email (Users w) k u Hstored Hu)
    as (k' & u' & Hhead & Hk' & Hu').
  exists k', u'. split; [exact Hk'|]. split; [exact Hu'|].
  unfold handle, login, findOne, gets, mbind, handler_bind.
  assert (Hm : missing (Some email) || missing (Some password) = false).
  { unfold missing. rewrite !bool_decide_eq_false_2 by assumption. reflexivity. }
  rewrite Hm. cbn [from_option id]. rewrite Hhead, (Hmatch k' u' Hk' Hu'). reflexivity.
Qed.

(** X18: with an email that is not empty and that a stored user has, and
    a password that is not empty and that matches every stored user of
    that email (the one user, where emails are unique), the login is
    answered with 200 and the token of a user with that email, and the
    store is unchanged. *)
Theorem login_token (email password : string) (w : World) (k : string) (u : Doc)
    (Hemail : email <> EmptyString) (Hpassword : password <> EmptyString)
    (Hstored : Users w !! k = Some u) (Hu : u !! "email"%string = Some email)
    (Hmatch : forall k' u', Users w !! k' = Some u' -> u' !! "email"%string = Some email ->
                            matchPassword u' password = true) :
  exists k' u',
    Users w !! k' = Some u' /\ u' !! "email"%string = Some email
    /\ handle (login matchPassword getSignedJwtToken (Some email) (Some password)) w
       = (Json 200 (TokenBody (getSignedJwtToken u')), w).
Proof. exact (login_finds_user email password w k u Hemail Hpassword Hstored Hu Hmatch). Qed.

End LoginMore.

Lemma login_missing_field_witness :
  handle (login sample_matchPassword sample_token (Some "john@gmail.com"%string) None)
    one_bootcamp
  = (Next {| message := "Please provide an email and password"; statusCode := Some 400 |},
     one_bootcamp).
Proof.
  apply (login_missing_field sample_matchPassword sample_token
           (Some "john@gmail.com"%string) None one_bootcamp).
  right. right. left. reflexivity.
Defined.

Lemma login_token_witness :
  exists k' u',
    Users one_bootcamp !! k' = Some u' /\ u' !! "email"%string = Some "john@gmail.com"%string
    /\ handle (login sample_matchPassword sample_token (Some "john@gmail.com"%string)
                 (Some "123456"%string)) one_bootcamp
       = (Json 200 (TokenBody (sample_token u')), one_bootcamp).
Proof.
  apply (login_token sample_matchPassword sample_token "john@gmail.com" "123456"
           one_bootcamp "u1"
           ({[ "email"%string := "john@gmail.com"%string;
               "password"%string := "123456"%string ]} : Doc)).
  - discriminate.
  - discriminate.
  - reflexivity.
  - reflexivity.
  - intros k' u' Hk Hu. cbn in Hk.
    apply lookup_singleton_Some in Hk as [_ <-]. reflexivity.
Defined.

Section ReadOnly.

Variable exec : Query -> Collection -> list Doc.
Variable matches : qval -> Doc -> bool.
Variable matchPassword : Doc -> string -> bool.
Variable getSignedJwtToken : Doc -> string.

(** X19: listing bootcamps, fetching one and logging in never change the
    store, whatever the request and whatever the answer. *)
Theorem readers_keep_the_world (w : World) :
  (forall query, snd (handle (getBootcamps exec matches query) w) = w)
  /\ (forall id, snd (handle (getBootcamp id) w) = w)
  /\ (forall email password,
        snd (handle (login matchPassword getSignedJwtToken email password) w) = w).
Proof.
  split; [|split].
  - intros query. rewrite getBootcamps_run. reflexivity.
  - intros id. reflexivity.
  - intros email password.
    unfold handle, login, findOne, gets, stop, mbind, handler_bind.
    repeat case_match; simplify_eq; reflexivity.
Qed.

End ReadOnly.


(** ** Create, update, register and the search in a radius *)

Lemma set_Bootcamps_id (w : World) : set_Bootcamps (fun c => c) w = w.
Proof. destruct w. reflexivity. Qed.

Section More.

Variable new_id : Collection -> string.
Variable saved_bootcamp : Doc -> option Doc.
Variable saved_user : Doc -> option Doc.
Variable valid_update : Doc -> bool.
Variable getSignedJwtToken : Doc -> string.

Lemma updateBootcamp_run (id : string) (body : Doc) (w : World) :
  valid_update body = true ->
  updateBootcamp valid_update id body w
  = let w' := set_Bootcamps (findByIdAndUpdate id body) w in
    match Bootcamps w' !! id with
    | None => (Stop (Next (not_found id)), w')
    | Some b => (Go (SentData 200 id b), w')
    end.
Proof.
  intros Hvalid.
  unfold updateBootcamp, findById, gets, modify, mbind, handler_bind.
  rewrite Hvalid. cbn -[set_Bootcamps].
  destruct (Bootcamps (set_Bootcamps (findByIdAndUpdate id body) w) !! id); reflexivity.
Qed.

Lemma findByIdAndUpdate_stored (id : string) (body d : Doc) (c : Collection) :
  c !! id = Some d -> findByIdAndUpdate id body c = <[id := body ∪ d]> c.
Proof. intros H. unfold findByIdAndUpdate. rewrite H. reflexivity. Qed.

Lemma findByIdAndUpdate_missing (id : string) (body : Doc) (c : Collection) :
  c !! id = None -> findByIdAndUpdate id body c = c.
Proof. intros H. unfold findByIdAndUpdate. rewrite H. reflexivity. Qed.

(** X20: an update for an id that matches no bootcamp is answered with
    the 404 [ErrorResponse] and stores nothing. *)
Theorem updateBootcamp_unknown_id (id : string) (body : Doc) (w : World)
    (Hvalid : valid_update body = true)
    (Hmissing : Bootcamps w !! id = None) :
  updateBootcamp valid_update id body w
  = (Stop (Next {| message := "Bootcamp not found with id of " +:+ id;
                   statusCode := Some 404 |}), w).
Proof.
  rewrite (updateBootcamp_run id body w Hvalid). cbv zeta.
  unfold set_Bootcamps. cbn [Bootcamps].
  rewrite (findByIdAndUpdate_missing id body _ Hmissing), Hmissing.
  destruct w. reflexivity.
Qed.

(** X21: an update of a stored bootcamp is answered with 200 and the
    updated document, which is the one stored from then on: a field of
    the update has the value of the update, every other field the value
    it had; the other bootcamps, their number, the courses, the users and
    the uploads are as before. *)
Theorem updateBootcamp_stored (id : string) (body : Doc) (w : World) (d : Doc)
    (Hvalid : valid_update body = true)
    (Hstored : Bootcamps w !! id = Some d) :
  exists d' w',
    updateBootcamp valid_update id body w = (Go (SentData 200 id d'), w')
    /\ Bootcamps w' !! id = Some d'
    /\ (forall f v, body !! f = Some v -> d' !! f = Some v)
    /\ (forall f, body !! f = None -> d' !! f = d !! f)
    /\ (forall id', id' <> id -> Bootcamps w' !! id' = Bootcamps w !! id')
    /\ base.size (Bootcamps w') = base.size (Bootcamps w)
    /\ Courses w' = Courses w /\ Users w' = Users w /\ uploads w' = uploads w.
Proof.
  exists (body ∪ d), (set_Bootcamps (insert id (body ∪ d)) w).
  rewrite (updateBootcamp_run id body w Hvalid). cbv zeta.
  unfold set_Bootcamps. cbn [Bootcamps Courses Users uploads].
  rewrite (findByIdAndUpdate_stored id body d _ Hstored), lookup_insert_eq.
  split; [reflexivity|]. split; [reflexivity|].
  split; [intros f v Hf; apply lookup_union_Some_l, Hf|].
  split; [intros f Hf; apply lookup_union_r, Hf|].
  split; [intros id' Hne; apply lookup_insert_ne; congruence|].
  split; [|repeat split].
  rewrite map_size_insert, Hstored. reflexivity.
Qed.

(** X22: an update applied a second time changes nothing more and is
    answered with the same document; an update without fields leaves the
    document and the store as they are. *)
Theorem updateBootcamp_again (id : string) (body : Doc) (w : World) (d : Doc)
    (Hvalid : valid_update body = true) (Hempty : valid_update ∅ = true)
    (Hstored : Bootcamps w !! id = Some d) :
  let r := updateBootcamp valid_update id body w in
  updateBootcamp valid_update id body (snd r) = r
  /\ updateBootcamp valid_update id ∅ w = (Go (SentData 200 id d), w).
Proof.
  cbv zeta. rewrite !updateBootcamp_run by assumption. cbv zeta.
  unfold set_Bootcamps. cbn [Bootcamps Courses Users uploads].
  rewrite !(findByIdAndUpdate_stored id _ d _ Hstored), lookup_insert_eq.
  cbn [snd Bootcamps Courses Users uploads].
  rewrite (findByIdAndUpdate_stored id body (body ∪ d)) by apply lookup_insert_eq.
  rewrite insert_insert_eq, (assoc_L (∪)), (idemp_L (∪)), (left_id_L ∅ (∪)).
  rewrite !lookup_insert_eq, (insert_id _ _ _ Hstored).
  split; [reflexivity|]. destruct w. reflexivity.
Qed.

(** X23: a bootcamp that passes validation is answered with 201 and the
    document saved; it is stored under the new id, every bootcamp stored
    before is unchanged, there is one bootcamp more, and the other
    collections are as before. *)
Theorem createBootcamp_stored (body d : Doc) (w : World)
    (Hsaved : saved_bootcamp body = Some d)
    (Hfresh : Bootcamps w !! new_id (Bootcamps w) = None) :
  exists w',
    createBootcamp new_id saved_bootcamp body w
    = (Go (SentData 201 (new_id (Bootcamps w)) d), w')
    /\ Bootcamps w' !! new_id (Bootcamps w) = Some d
    /\ (forall id b, Bootcamps w !! id = Some b -> Bootcamps w' !! id = Some b)
    /\ base.size (Bootcamps w') = S (base.size (Bootcamps w))
    /\ Courses w' = Courses w /\ Users w' = Users w /\ uploads w' = uploads w.
Proof.
  exists (set_Bootcamps (insert (new_id (Bootcamps w)) d) w).
  unfold createBootcamp, create, gets, modify, mbind, handler_bind, mret, handler_ret.
  rewrite Hsaved. cbn.
  split; [reflexivity|]. split; [apply lookup_insert_eq|].
  split; [|split; [apply map_size_insert_None, Hfresh | repeat split]].
  intros id b Hb. rewrite lookup_insert_ne; [exact Hb|]. congruence.
Qed.

(** X24: a bootcamp just created is found by [getBootcamp] under its id, and
    deleting it gives the collection of bootcamps as it was before the
    create. *)
Theorem create_get_delete (body d : Doc) (w : World)
    (Hsaved : saved_bootcamp body = Some d)
    (Hfresh : Bootcamps w !! new_id (Bootcamps w) = None) :
  let id := new_id (Bootcamps w) in
  let w1 := snd (createBootcamp new_id saved_bootcamp body w) in
  handle (getBootcamp id) w1 = (Json 200 (MsgBody (Some d)), w1)
  /\ fst (handle (deleteBootcamp id) w1) = Json 200 EmptyBody
  /\ Bootcamps (snd (handle (deleteBootcamp id) w1)) = Bootcamps w.
Proof.
  cbv zeta.
  unfold createBootcamp, create, gets, modify, mbind, handler_bind, mret, handler_ret.
  rewrite Hsaved. cbn [snd].
  set (id := new_id (Bootcamps w)) in *.
  assert (Hid : Bootcamps (set_Bootcamps (insert id d) w) !! id = Some d)
    by apply lookup_insert_eq.
  split.
  - unfold handle, getBootcamp, findById, gets, mbind, handler_bind. cbn [negb Bootcamp_truthy].
    rewrite Hid. reflexivity.
  - rewrite (deleteBootcamp_found id _ d Hid). cbn.
    split; [reflexivity|]. unfold deleteOne. apply delete_insert_id, Hfresh.
Qed.

(** X25: of the body of a register request, only the fields name, email,
    password and role reach [User.create], each with its value. *)
Theorem user_fields_lookup (body : Doc) (f : string) :
  user_fields body !! f
  = if bool_decide (f ∈ ["name"; "email"; "password"; "role"]%string)
    then body !! f else None.
Proof.
  unfold user_fields. case_bool_decide as Hf.
  - destruct (body !! f) as [v|] eqn:E.
    + apply map_lookup_filter_Some. split; [exact E | exact Hf].
    + apply map_lookup_filter_None. left. exact E.
  - apply map_lookup_filter_None. right. intros v _ Hin. exact (Hf Hin).
Qed.

(** X26: a register request that passes validation stores the user under
    the new id and is answered with 200 and the token of that user; the
    users stored before, the bootcamps, the courses and the uploads are
    unchanged. *)
Theorem register_stored (body u : Doc) (w : World)
    (Hsaved : saved_user (user_fields body) = Some u)
    (Hfresh : Users w !! new_id (Users w) = None) :
  let '(o, w') := handle (register new_id saved_user getSignedJwtToken body) w in
  o = Json 200 (TokenBody (getSignedJwtToken u))
  /\ Users w' !! new_id (Users w) = Some u
  /\ (forall k v, Users w !! k = Some v -> Users w' !! k = Some v)
  /\ Bootcamps w' = Bootcamps w /\ Courses w' = Courses w /\ uploads w' = uploads w.
Proof.
  unfold handle, register, create, gets, modify, stop, mbind, handler_bind, mret, handler_ret.
  rewrite Hsaved. cbn.
  split; [reflexivity|]. split; [apply lookup_insert_eq|].
  split; [|repeat split].
  intros k v Hk. rewrite lookup_insert_ne; [exact Hk|]. congruence.
Qed.

End More.


Section RegisterLogin.

Variable new_id : Collection -> string.
Variable saved_user : Doc -> option Doc.
Variable matchPassword : Doc -> string -> bool.
Variable getSignedJwtToken : Doc -> string.


End RegisterLogin.

Section Radius.

Variable Number : Type.
Variable geocode : string -> list (Place Number).
Variable divide : string -> Z -> Number.
Variable centerSphere : Number -> Number -> Number -> Doc -> bool.


End Radius.


(** Witnesses of the properties of create, update and register. *)

Lemma updateBootcamp_unknown_id_witness :
  updateBootcamp sample_valid "5d725a1b7b292f5f8ceff788"
    ({[ "name"%string := "Devcentral"%string ]} : Doc) one_bootcamp
  = (Stop (Next {| message := "Bootcamp not found with id of 5d725a1b7b292f5f8ceff788";
                   statusCode := Some 404 |}), one_bootcamp).
Proof.
  apply (updateBootcamp_unknown_id sample_valid "5d725a1b7b292f5f8ceff788"
           ({[ "name"%string := "Devcentral"%string ]} : Doc) one_bootcamp);
    reflexivity.
Defined.

Lemma updateBootcamp_stored_witness :
  exists d' w',
    updateBootcamp sample_valid bootcamp_id
      ({[ "phone"%string := "555"%string ]} : Doc) one_bootcamp
    = (Go (SentData 200 bootcamp_id d'), w')
    /\ Bootcamps w' !! bootcamp_id = Some d'
    /\ (forall f v, ({[ "phone"%string := "555"%string ]} : Doc) !! f = Some v ->
          d' !! f = Some v)
    /\ (forall f, ({[ "phone"%string := "555"%string ]} : Doc) !! f = None ->
          d' !! f = ({[ "name"%string := "Devworks"%string ]} : Doc) !! f)
    /\ (forall id', id' <> bootcamp_id -> Bootcamps w' !! id' = Bootcamps one_bootcamp !! id')
    /\ base.size (Bootcamps w') = base.size (Bootcamps one_bootcamp)
    /\ Courses w' = Courses one_bootcamp /\ Users w' = Users one_bootcamp
    /\ uploads w' = uploads one_bootcamp.
Proof.
  apply (updateBootcamp_stored sample_valid bootcamp_id
           ({[ "phone"%string := "555"%string ]} : Doc) one_bootcamp
           ({[ "name"%string := "Devworks"%string ]} : Doc));
    reflexivity.
Defined.

Lemma updateBootcamp_again_witness :
  let r := updateBootcamp sample_valid bootcamp_id
             ({[ "phone"%string := "555"%string ]} : Doc) one_bootcamp in
  updateBootcamp sample_valid bootcamp_id ({[ "phone"%string := "555"%string ]} : Doc) (snd r)
  = r
  /\ updateBootcamp sample_valid bootcamp_id ∅ one_bootcamp
     = (Go (SentData 200 bootcamp_id ({[ "name"%string := "Devworks"%string ]} : Doc)),
        one_bootcamp).
Proof.
  apply (updateBootcamp_again sample_valid bootcamp_id
           ({[ "phone"%string := "555"%string ]} : Doc) one_bootcamp
           ({[ "name"%string := "Devworks"%string ]} : Doc));
    reflexivity.
Defined.

Lemma createBootcamp_stored_witness :
  exists w',
    createBootcamp sample_new_id sample_saved
      ({[ "name"%string := "Codemasters"%string ]} : Doc) one_bootcamp
    = (Go (SentData 201 (sample_new_id (Bootcamps one_bootcamp))
             ({[ "name"%string := "Codemasters"%string ]} : Doc)), w')
    /\ Bootcamps w' !! sample_new_id (Bootcamps one_bootcamp)
       = Some ({[ "name"%string := "Codemasters"%string ]} : Doc)
    /\ (forall id b, Bootcamps one_bootcamp !! id = Some b -> Bootcamps w' !! id = Some b)
    /\ base.size (Bootcamps w') = S (base.size (Bootcamps one_bootcamp))
    /\ Courses w' = Courses one_bootcamp /\ Users w' = Users one_bootcamp
    /\ uploads w' = uploads one_bootcamp.
Proof.
  apply (createBootcamp_stored sample_new_id sample_saved
           ({[ "name"%string := "Codemasters"%string ]} : Doc)
           ({[ "name"%string := "Codemasters"%string ]} : Doc) one_bootcamp);
    reflexivity.
Defined.

Lemma create_get_delete_witness :
  let id := sample_new_id (Bootcamps one_bootcamp) in
  let w1 := snd (createBootcamp sample_new_id sample_saved
                   ({[ "name"%string := "Codemasters"%string ]} : Doc) one_bootcamp) in
  handle (getBootcamp id) w1
  = (Json 200 (MsgBody (Some ({[ "name"%string := "Codemasters"%string ]} : Doc))), w1)
  /\ fst (handle (deleteBootcamp id) w1) = Json 200 EmptyBody
  /\ Bootcamps (snd (handle (deleteBootcamp id) w1)) = Bootcamps one_bootcamp.
Proof.
  apply (create_get_delete sample_new_id sample_saved
           ({[ "name"%string := "Codemasters"%string ]} : Doc)
           ({[ "name"%string := "Codemasters"%string ]} : Doc) one_bootcamp);
    reflexivity.
Defined.

Lemma register_stored_witness :
  let '(o, w') := handle (register sample_new_id sample_saved sample_token new_user)
                    one_bootcamp in
  o = Json 200 (TokenBody (sample_token (user_fields new_user)))
  /\ Users w' !! sample_new_id (Users one_bootcamp) = Some (user_fields new_user)
  /\ (forall k v, Users one_bootcamp !! k = Some v -> Users w' !! k = Some v)
  /\ Bootcamps w' = Bootcamps one_bootcamp /\ Courses w' = Courses one_bootcamp
  /\ uploads w' = uploads one_bootcamp.
Proof.
  apply (register_stored sample_new_id sample_saved sample_token new_user
           (user_fields new_user) one_bootcamp);
    reflexivity.
Defined.

Example user_fields_example :
  user_fields new_user
  = ({[ "name"%string := "Mary"%string; "email"%string := "mary@gmail.com"%string;
        "password"%string := "secret1"%string ]} : Doc).
Proof. vm_compute. reflexivity. Qed.

